(** * guacamole-export: the two converters and their specification

    The repository holds two one-shot scripts:
    - [rdm_to_guac_json.py] reads an RDM XML export and prints a JSON list of
      Guacamole connection definitions (module [Rdm]);
    - [guacamole-export.py] reads the connections of a Guacamole PostgreSQL
      database and writes them to a JSON file (module [GuacamoleExport]).

    Both are embedded as Rocq functions, statement by statement.  The parts
    of Python and of its libraries the scripts rely on come first: values
    and exceptions ([Py]), [xml.etree.ElementTree] elements ([ET]) and
    [json.dumps] ([Json]).

    Strings.  A Python [str] is modelled by a Rocq [string] whose characters
    are the code points below 256.  [int] is Python's unbounded integer, [Z];
    a decimal conversion is refused beyond the interpreter's default number
    of digits. *)

From Stdlib Require Import ZArith Ascii.
From stdpp Require Import base option list gmap strings pretty.

Local Open Scope Z_scope.

(** ** Python values, exceptions and [str] methods *)
Module Py.

(** The values the scripts put into their dictionaries. *)
Inductive pyval :=
| PNone
| PStr (s : string)
| PInt (z : Z).

(** A text that may be [None]: [Element.text], a nullable column. *)
Definition of_text (o : option string) : pyval :=
  match o with Some s => PStr s | None => PNone end.

(** The exceptions that can escape from the code modelled here. *)
Inductive exn :=
| UnboundLocalError
| AttributeError
| ValueError.

(** Outcome of a piece of code: a value, an exception that propagates, or
    [OutOfFuel] when a [while] loop was cut by the bound of the model
    (shown below never to happen). *)
Inductive result (A : Type) :=
| Ok (a : A)
| Raise (e : exn)
| OutOfFuel.
Arguments Ok {A} a.
Arguments Raise {A} e.
Arguments OutOfFuel {A}.

Definition bind {A B} (m : result A) (k : A → result B) : result B :=
  match m with
  | Ok a => k a
  | Raise e => Raise e
  | OutOfFuel => OutOfFuel
  end.

(** [str(x)] as an f-string field renders it. *)
Definition str (v : pyval) : string :=
  match v with
  | PNone => "None"
  | PStr s => s
  | PInt z => pretty z
  end.

(** Truth value of a text: [None] and the empty string are false. *)
Definition truthy (o : option string) : bool :=
  match o with
  | Some (String _ _) => true
  | _ => false
  end.

Definition code (c : ascii) : N := N_of_ascii c.

(** ['0'..'9']: the characters with the Unicode property Decimal. *)
Definition is_decimal_char (c : ascii) : bool :=
  ((48 <=? code c) && (code c <=? 57))%N.

(** [c.isdigit()]: below 256 the decimal characters and the superscript
    digits U+00B2, U+00B3 and U+00B9. *)
Definition is_digit_char (c : ascii) : bool :=
  is_decimal_char c
  || (code c =? 178)%N || (code c =? 179)%N || (code c =? 185)%N.

Fixpoint all_chars (p : ascii → bool) (s : string) : bool :=
  match s with
  | EmptyString => true
  | String c s' => p c && all_chars p s'
  end.

(** [s.isdigit()]: at least one character, all of them digits. *)
Definition isdigit (s : string) : bool :=
  match s with
  | EmptyString => false
  | _ => all_chars is_digit_char s
  end.

Fixpoint int_digits (acc : Z) (s : string) : Z :=
  match s with
  | EmptyString => acc
  | String c s' => int_digits (10 * acc + (Z.of_N (code c) - 48)) s'
  end.

(** [sys.int_info.default_max_str_digits] *)
Definition max_str_digits : nat := 4300.

(** [int(s)] for a non-empty [s] without sign, blank or underscore (all
    that [isdigit] lets through): the decimal value; [ValueError] when a
    character is not decimal or when [s] is longer than the interpreter
    converts. *)
Definition int (s : string) : result Z :=
  if all_chars is_decimal_char s then
    if (max_str_digits <? String.length s)%nat then Raise ValueError
    else Ok (int_digits 0 s)
  else Raise ValueError.

(** [s.replace(a, b)] for one-character [a] and [b]. *)
Fixpoint replace (a b : ascii) (s : string) : string :=
  match s with
  | EmptyString => EmptyString
  | String c s' =>
      String (if Ascii.eqb c a then b else c) (replace a b s')
  end.

(** A [dict] keeps its keys in insertion order; [d[k] = v] overwrites the
    value of a key already there, in place, and appends a new key. *)
Fixpoint setitem {K V} `{EqDecision K} (k : K) (v : V) (d : list (K * V))
  : list (K * V) :=
  match d with
  | [] => [(k, v)]
  | (k', v') :: d' =>
      if decide (k' = k) then (k, v) :: d' else (k', v') :: setitem k v d'
  end.

Fixpoint getitem {K V} `{EqDecision K} (k : K) (d : list (K * V))
  : option V :=
  match d with
  | [] => None
  | (k', v') :: d' => if decide (k' = k) then Some v' else getitem k d'
  end.

Definition keys {K V} (d : list (K * V)) : list K := d.*1.
Definition values {K V} (d : list (K * V)) : list V := d.*2.

End Py.

Global Instance result_ret : MRet Py.result := @Py.Ok.
Global Instance result_bind : MBind Py.result := λ A B k m, Py.bind m k.
Global Instance pyval_eq_dec : EqDecision Py.pyval.
Proof. solve_decision. Defined.
Global Instance exn_eq_dec : EqDecision Py.exn.
Proof. solve_decision. Defined.

(** ** [xml.etree.ElementTree] *)
Module ET.

(** An element: its tag, the text before its first child ([None] when
    there is none) and its children in document order.  Attributes and
    tails are not read by the converter. *)
#[local] Unset Elimination Schemes.
Inductive Element :=
| Elem (tag : string) (text : option string) (children : list Element).
#[local] Set Elimination Schemes.

Definition tag (e : Element) : string :=
  match e with Elem t _ _ => t end.
Definition text (e : Element) : option string :=
  match e with Elem _ x _ => x end.
Definition children (e : Element) : list Element :=
  match e with Elem _ _ cs => cs end.

Definition has_tag (t : string) (e : Element) : bool :=
  bool_decide (tag e = t).

(** [e.find(t)]: the first child of [e] with tag [t]. *)
Definition find (t : string) (e : Element) : option Element :=
  List.find (has_tag t) (children e).

(** [e.iter()]: [e] and its descendants, in document order. *)
Fixpoint iter (e : Element) : list Element :=
  match e with
  | Elem _ _ cs =>
      e :: flat_map iter cs
  end.

(** [e.findall('.//' + t)]: the descendants of [e] with tag [t], in
    document order; [e] itself is not among them. *)
Definition findall_descendants (t : string) (e : Element) : list Element :=
  List.filter (has_tag t) (flat_map iter (children e)).

(** [bool(e)]: an element is true when it has children ([len(e) != 0]). *)
Definition truth (e : Element) : bool :=
  match children e with [] => false | _ => true end.

(** [a or b] on results of [find]. *)
Definition or_else (a b : option Element) : option Element :=
  match a with
  | Some e => if truth e then a else b
  | None => b
  end.

End ET.

(** ** [json.dumps] *)
Module Json.

#[local] Unset Elimination Schemes.
Inductive json :=
| JNull
| JStr (s : string)
| JInt (z : Z)
| JList (items : list json)
| JDict (items : list (string * json)).
#[local] Set Elimination Schemes.

Definition of_pyval (v : Py.pyval) : json :=
  match v with
  | Py.PNone => JNull
  | Py.PStr s => JStr s
  | Py.PInt z => JInt z
  end.

Definition chr (n : N) : string := String (ascii_of_N n) EmptyString.
Definition quote : string := chr 34.
Definition backslash : string := chr 92.
Definition newline : string := chr 10.

Definition hex_digit (n : N) : string :=
  chr (if (n <? 10)%N then 48 + n else 87 + n)%N.

(** The escape of one character: the short escapes of [ESCAPE_DCT],
    [\u00xx] for the other control characters and, with [ensure_ascii],
    for every character outside [' '..'~']. *)
Definition escape_char (ensure_ascii : bool) (c : ascii) : string :=
  let n := Py.code c in
  if (n =? 34)%N then backslash +:+ quote
  else if (n =? 92)%N then backslash +:+ backslash
  else if (n =? 8)%N then backslash +:+ "b"
  else if (n =? 12)%N then backslash +:+ "f"
  else if (n =? 10)%N then backslash +:+ "n"
  else if (n =? 13)%N then backslash +:+ "r"
  else if (n =? 9)%N then backslash +:+ "t"
  else if (n <? 32)%N || (ensure_ascii && (126 <? n)%N) then
    backslash +:+ "u00" +:+ hex_digit (n / 16) +:+ hex_digit (n mod 16)
  else String c EmptyString.

Fixpoint escape (ensure_ascii : bool) (s : string) : string :=
  match s with
  | EmptyString => EmptyString
  | String c s' => escape_char ensure_ascii c +:+ escape ensure_ascii s'
  end.

Definition encode_string (ensure_ascii : bool) (s : string) : string :=
  quote +:+ escape ensure_ascii s +:+ quote.

Fixpoint spaces (n : nat) : string :=
  match n with
  | O => EmptyString
  | S n' => " " +:+ spaces n'
  end.

(** A line break followed by the indentation of nesting depth [level]
    ([indent=4]). *)
Definition newline_indent (level : nat) : string :=
  newline +:+ spaces (4 * level).

Fixpoint join (sep : string) (l : list string) : string :=
  match l with
  | [] => EmptyString
  | [x] => x
  | x :: l' => x +:+ sep +:+ join sep l'
  end.

(** [json.dumps(j, indent=4, ensure_ascii=...)] at nesting depth
    [level]. *)
Fixpoint encode (ensure_ascii : bool) (level : nat) (j : json) : string :=
  match j with
  | JNull => "null"
  | JStr s => encode_string ensure_ascii s
  | JInt z => pretty z
  | JList [] => "[]"
  | JList items =>
      "[" +:+ newline_indent (S level)
      +:+ join ("," +:+ newline_indent (S level))
            (List.map (encode ensure_ascii (S level)) items)
      +:+ newline_indent level +:+ "]"
  | JDict [] => "{}"
  | JDict items =>
      "{" +:+ newline_indent (S level)
      +:+ join ("," +:+ newline_indent (S level))
            (List.map
               (λ kv, encode_string ensure_ascii (fst kv) +:+ ": "
                      +:+ encode ensure_ascii (S level) (snd kv))
               items)
      +:+ newline_indent level +:+ "}"
  end.

Definition dumps (ensure_ascii : bool) (j : json) : string :=
  encode ensure_ascii 0 j.

End Json.

(** ** [rdm_to_guac_json.py] *)
Module Rdm.
Import Py ET.

(** A connection object: the dictionary with the keys ["name"],
    ["protocol"], ["parameters"] and, when [group] is [Some], ["group"],
    in this order.  ["name"] holds a text or [None]. *)
Record guac_dict := {
  name : option string;
  protocol : string;
  parameters : list (string * pyval);
  group : option string
}.

Global Instance guac_dict_inhabited : Inhabited guac_dict :=
  populate {| name := None; protocol := ""; parameters := []; group := None |}.

Definition set_name (n : option string) (d : guac_dict) : guac_dict :=
  {| name := n; protocol := protocol d;
     parameters := parameters d; group := group d |}.

(** [x.text if x is not None else ''] *)
Definition text_or_empty (x : option Element) : option string :=
  match x with
  | Some e => text e
  | None => Some ""
  end.

(** [int(p.text) if p is not None and p.text.isdigit() else default];
    [p.text] is [None] for an element without text, and [None] has no
    [isdigit]. *)
Definition port_of (port_elem : option Element) (default : Z) : result Z :=
  match port_elem with
  | None => Ok default
  | Some p =>
      match text p with
      | None => Raise AttributeError
      | Some t => if isdigit t then int t else Ok default
      end
  end.

(** [n.text if n is not None else f"{label}_{host}:{port}"] *)
Definition name_of (name_elem : option Element) (label : string)
    (host : option string) (port : Z) : option string :=
  match name_elem with
  | Some n => text n
  | None =>
      Some (label +:+ "_" +:+ str (of_text host) +:+ ":" +:+ str (PInt port))
  end.

(** The ["group"] entry: ['ROOT/' + path.replace('\\', '/')] when the
    path is true, no entry otherwise. *)
Definition guac_group_path (rdm_group_path : option string)
  : option string :=
  match rdm_group_path with
  | Some (String c s) =>
      Some ("ROOT/" +:+ replace (ascii_of_N 92) (ascii_of_N 47) (String c s))
  | _ => None
  end.

(** [t if t else ""] *)
Definition or_empty (t : option string) : string :=
  match t with
  | Some (String c s) => String c s
  | _ => ""
  end.

(** The SSH branch, from its section [Terminal]. *)
Definition ssh_connection (conn_element terminal : Element)
  : result guac_dict :=
  let host_elem := find "Host" terminal in
  let port_elem := find "HostPort" terminal in
  let user_elem := find "Username" terminal in
  let pass_elem := find "SafePassword" terminal in
  let command_elem := find "RemoteCommand" terminal in
  let name_elem := find "Name" conn_element in
  let group_elem := find "Group" conn_element in
  let rdm_group_path := text_or_empty group_elem in
  let host := text_or_empty host_elem in
  port ← port_of port_elem 22;
  let username := text_or_empty user_elem in
  let password := text_or_empty pass_elem in
  let command := text_or_empty command_elem in
  let name := name_of name_elem "SSH" host port in
  mret {| name := name;
          protocol := "ssh";
          parameters := [("hostname", of_text host);
                         ("port", PInt port);
                         ("username", of_text username);
                         ("remote-app", PStr (or_empty command));
                         ("command", PStr (or_empty command))];
          group := guac_group_path rdm_group_path |}.

(** The RDP branch, from its section [RDP]. *)
Definition rdp_connection (conn_element rdp_section : Element)
  : result guac_dict :=
  let host_elem :=
    or_else (find "Host" rdp_section) (find "Url" conn_element) in
  let port_elem := find "Port" rdp_section in
  let user_elem := find "UserName" rdp_section in
  let pass_elem := find "SafePassword" rdp_section in
  let domain_elem := find "Domain" rdp_section in
  let name_elem := find "Name" conn_element in
  let group_elem := find "Group" conn_element in
  let rdm_group_path := text_or_empty group_elem in
  let screen_mode_elem := find "ScreenSizingMode" rdp_section in
  let screen_mode := text_or_empty screen_mode_elem in
  let host := text_or_empty host_elem in
  port ← port_of port_elem 3389;
  let username := text_or_empty user_elem in
  let password := text_or_empty pass_elem in
  let domain := text_or_empty domain_elem in
  let name := name_of name_elem "RDP" host port in
  let guac_params := [("hostname", of_text host);
                      ("port", PInt port);
                      ("username", of_text username)] in
  let guac_params :=
    if truthy domain then setitem "domain" (of_text domain) guac_params
    else guac_params in
  let guac_params :=
    if bool_decide (screen_mode = Some "FitToWindow")
    then setitem "resize-method" (PStr "scale") guac_params
    else if bool_decide (screen_mode = Some "FullScreen")
    then setitem "resize-method" (PStr "none") guac_params
    else guac_params in
  mret {| name := name;
          protocol := "rdp";
          parameters := guac_params;
          group := guac_group_path rdm_group_path |}.

(** The VNC branch, from its section [VNC]. *)
Definition vnc_connection (conn_element vnc_section : Element)
  : result guac_dict :=
  let host_elem := find "Host" vnc_section in
  let port_elem := find "Port" vnc_section in
  let pass_elem := find "MsSafePassword" vnc_section in
  let user_elem := find "MsUser" vnc_section in
  let name_elem := find "Name" conn_element in
  let group_elem := find "Group" conn_element in
  let rdm_group_path := text_or_empty group_elem in
  let host := text_or_empty host_elem in
  port ← port_of port_elem 5900;
  let password := text_or_empty pass_elem in
  let username := text_or_empty user_elem in
  let name := name_of name_elem "VNC" host port in
  let guac_params := [("hostname", of_text host); ("port", PInt port)] in
  let guac_params :=
    if truthy username then setitem "username" (of_text username) guac_params
    else guac_params in
  mret {| name := name;
          protocol := "vnc";
          parameters := guac_params;
          group := guac_group_path rdm_group_path |}.

(** The state of the function while it goes through the elements.  The
    connection objects live in [heap]; an object is known by its index
    there, so that [connections] and the variable [guac_connection] can
    hold the same object.  The variables [guac_connection] and [protocol]
    are assigned inside the branches only: [None] is "not yet bound". *)
Record locals := {
  heap : list guac_dict;
  v_connections : list nat;
  v_used_names : gset (option string);
  v_guac_connection : option nat;
  v_protocol : option string
}.

Definition initial : locals :=
  {| heap := []; v_connections := []; v_used_names := ∅;
     v_guac_connection := None; v_protocol := None |}.

(** [guac_connection = {...}] and [protocol = label]: a new object. *)
Definition assign (st : locals) (d : guac_dict) (label : string) : locals :=
  {| heap := heap st ++ [d];
     v_connections := v_connections st;
     v_used_names := v_used_names st;
     v_guac_connection := Some (length (heap st));
     v_protocol := Some label |}.

(** The [while unique_name in used_names] loop, entered with the current
    [unique_name] and [counter]; it reads [protocol] when its body runs. *)
Fixpoint name_loop (fuel : nat) (used_names : gset (option string))
    (original_name : option string) (protocol : option string)
    (unique_name : option string) (counter : Z)
  : result (option string) :=
  if bool_decide (unique_name ∈ used_names) then
    match fuel with
    | O => OutOfFuel
    | S fuel' =>
        match protocol with
        | None => Raise UnboundLocalError
        | Some p =>
            let unique_name :=
              str (of_text original_name) +:+ " (" +:+ p +:+ ")" in
            let unique_name :=
              if 1 <? counter then unique_name +:+ "_" +:+ str (PInt counter)
              else unique_name in
            name_loop fuel' used_names original_name protocol
              (Some unique_name) (counter + 1)
        end
    end
  else Ok unique_name.

(** The name uniqueness check and the two appends that end an iteration:
    it renames the object [guac_connection] refers to, whichever branch
    bound it. *)
Definition name_uniqueness_check (st : locals) : result locals :=
  match v_guac_connection st with
  | None => Raise UnboundLocalError
  | Some r =>
      let original_name := name (heap st !!! r) in
      unique_name ← name_loop (2 + size (v_used_names st)) (v_used_names st)
                      original_name (v_protocol st) original_name 1;
      mret {| heap := <[r := set_name unique_name (heap st !!! r)]> (heap st);
              v_connections := v_connections st ++ [r];
              v_used_names := {[unique_name]} ∪ v_used_names st;
              v_guac_connection := v_guac_connection st;
              v_protocol := v_protocol st |}
  end.

(** What the [if]/[elif] chain on the connection type does: [Some st'] to
    go on to the name check, [None] for [continue]. *)
Definition branch (st : locals) (conn_element : Element)
    (conn_type : option string) : result (option locals) :=
  if bool_decide (conn_type = Some "SSHShell") then
    match find "Terminal" conn_element with
    | Some terminal =>
        d ← ssh_connection conn_element terminal;
        mret (Some (assign st d "SSH"))
    | None => mret (Some st)
    end
  else if bool_decide (conn_type ∈ [Some "RDP"; Some "RDPConfigured"]) then
    match find "RDP" conn_element with
    | Some rdp_section =>
        d ← rdp_connection conn_element rdp_section;
        mret (Some (assign st d "RDP"))
    | None => mret (Some st)
    end
  else if bool_decide (conn_type = Some "VNC") then
    match find "VNC" conn_element with
    | Some vnc_section =>
        d ← vnc_connection conn_element vnc_section;
        mret (Some (assign st d "VNC"))
    | None => mret (Some st)
    end
  else mret None.

(** One iteration of [for conn_element in root.findall('.//Connection')]. *)
Definition loop_body (st : locals) (conn_element : Element)
  : result locals :=
  match find "ConnectionType" conn_element with
  | None => mret st
  | Some conn_type_elem =>
      let conn_type := text conn_type_elem in
      b ← branch st conn_element conn_type;
      match b with
      | Some st' => name_uniqueness_check st'
      | None => mret st
      end
  end.

Fixpoint for_each (st : locals) (elements : list Element) : result locals :=
  match elements with
  | [] => mret st
  | conn_element :: rest =>
      st' ← loop_body st conn_element; for_each st' rest
  end.

(** The list [connections] as [json.dumps] sees it. *)
Definition connections (st : locals) : list guac_dict :=
  (λ r, heap st !!! r) <$> v_connections st.

(** The body of the function from the parsed document to the list. *)
Definition convert_elements (root : Element) : result (list guac_dict) :=
  st ← for_each initial (findall_descendants "Connection" root);
  mret (connections st).

Definition to_json (d : guac_dict) : Json.json :=
  Json.JDict
    ([("name", Json.of_pyval (of_text (name d)));
      ("protocol", Json.JStr (protocol d));
      ("parameters",
       Json.JDict ((λ kv, (fst kv, Json.of_pyval (snd kv))) <$> parameters d))]
     ++ match group d with
        | Some g => [("group", Json.JStr g)]
        | None => []
        end).

(** What is found at a path: nothing, a file [ET.parse] rejects with
    [ParseError e], a file whose reading fails with another exception [e],
    or a well-formed document. *)
Inductive file :=
| Missing
| Malformed (e : string)
| Unreadable (e : string)
| Document (root : Element).

Definition convert_rdm_to_guac_json (fs : string → file)
    (xml_file_path : string) : result string :=
  match fs xml_file_path with
  | Missing => mret ("Error: File not found: " +:+ xml_file_path)
  | Malformed e => mret ("Error parsing XML file: " +:+ e)
  | Unreadable e => mret ("Error reading file: " +:+ e)
  | Document root =>
      connections ← convert_elements root;
      match connections with
      | _ :: _ => mret (Json.dumps true (Json.JList (to_json <$> connections)))
      | [] => mret "No supported connections (SSHShell, RDP, RDPConfigured, VNC) found in the provided XML."
      end
  end.

(** A finished run of the script: what it printed on standard output and
    its exit status; [Diverges] stands for [OutOfFuel]. *)
Inductive run :=
| Exit (stdout : list string) (status : Z)
| Diverges.

(** The [__main__] block.  An exception that nothing catches ends the
    interpreter with a traceback on standard error and status 1. *)
Definition main (fs : string → file) (argv : list string) : run :=
  if bool_decide (length argv ≠ 2%nat) then
    Exit ["Usage: python rdm_to_guac_json.py <path_to_rdm_xml_file>"] 1
  else
    let input_xml_file := default "" (argv !! 1%nat) in
    match convert_rdm_to_guac_json fs input_xml_file with
    | Ok result_json => Exit [result_json] 0
    | Raise _ => Exit [] 1
    | OutOfFuel => Diverges
    end.

(** *** The words of the specification *)

(** The four connection types the converter knows. *)
Definition recognized_type (conn_type : option string) : bool :=
  bool_decide (conn_type ∈ [Some "SSHShell"; Some "RDP";
                            Some "RDPConfigured"; Some "VNC"]).

(** A connection element with a recognized discriminant: its first
    [ConnectionType] child carries one of the four texts. *)
Definition recognized (conn_element : Element) : bool :=
  match find "ConnectionType" conn_element with
  | Some t => recognized_type (text t)
  | None => false
  end.

(** The type-specific section of a connection type, and the tag of the
    port inside it. *)
Definition section_tag (conn_type : option string) : string :=
  if bool_decide (conn_type = Some "SSHShell") then "Terminal"
  else if bool_decide (conn_type = Some "VNC") then "VNC"
  else "RDP".

Definition port_tag (conn_type : option string) : string :=
  if bool_decide (conn_type = Some "SSHShell") then "HostPort" else "Port".

Definition type_label (conn_type : option string) : string :=
  if bool_decide (conn_type = Some "SSHShell") then "SSH"
  else if bool_decide (conn_type = Some "VNC") then "VNC"
  else "RDP".

Definition default_port (conn_type : option string) : Z :=
  if bool_decide (conn_type = Some "SSHShell") then 22
  else if bool_decide (conn_type = Some "VNC") then 5900
  else 3389.

Definition connection_type (conn_element : Element) : option string :=
  find "ConnectionType" conn_element ≫= text.

Definition type_section (conn_element : Element) : option Element :=
  find (section_tag (connection_type conn_element)) conn_element.

Definition port_element (conn_element : Element) : option Element :=
  type_section conn_element
    ≫= find (port_tag (connection_type conn_element)).

(** A port the converter can read: no port element, or one whose text is
    either not all digits (the default applies) or a decimal numeral
    [int] accepts. *)
Definition readable_port (port_elem : option Element) : bool :=
  match port_elem with
  | None => true
  | Some p =>
      match text p with
      | None => false
      | Some t =>
          negb (isdigit t)
          || (all_chars is_decimal_char t
              && negb (max_str_digits <? String.length t)%nat)
      end
  end.

(** A recognized element is complete when it has its section and a
    readable port. *)
Definition complete (conn_element : Element) : bool :=
  match type_section conn_element with
  | Some _ => readable_port (port_element conn_element)
  | None => false
  end.

(** The recognized connection elements of a document, in its order. *)
Definition recognized_elements (root : Element) : list Element :=
  List.filter recognized (findall_descendants "Connection" root).

(** The name an element declares: the text of its [Name] child. *)
Definition declared_name (conn_element : Element) : option string :=
  find "Name" conn_element ≫= text.

(** The keys of the JSON object written for a record. *)
Definition json_keys (j : Json.json) : list string :=
  match j with
  | Json.JDict items => items.*1
  | _ => []
  end.

(** The name the loop tries at [counter]. *)
Definition candidate (original_name : option string) (p : string)
    (counter : Z) : string :=
  let unique_name := str (of_text original_name) +:+ " (" +:+ p +:+ ")" in
  if 1 <? counter then unique_name +:+ "_" +:+ str (PInt counter)
  else unique_name.

(** The record a recognized type builds from the element and its
    section. *)
Definition build (conn_type : option string) (conn_element sec : Element)
  : result guac_dict :=
  if bool_decide (conn_type = Some "SSHShell") then
    ssh_connection conn_element sec
  else if bool_decide (conn_type = Some "VNC") then
    vnc_connection conn_element sec
  else rdp_connection conn_element sec.

(** The state an iteration leaves when it has built the record [d] and
    named it [n]. *)
Definition appended (st : locals) (d : guac_dict) (n : option string)
    (label : string) : locals :=
  {| heap := heap st ++ [set_name n d];
     v_connections := v_connections st ++ [length (heap st)];
     v_used_names := {[n]} ∪ v_used_names st;
     v_guac_connection := Some (length (heap st));
     v_protocol := Some label |}.

(** An element declares the group [p]: it has a [Group] child whose text
    is the non-empty path [p]. *)
Definition declares_group (conn_element : Element) (p : string) : Prop :=
  ∃ g, find "Group" conn_element = Some g ∧ text g = Some p ∧ p ≠ "".

(** The group rule between an element and its record. *)
Definition group_rule (e : Element) (d : guac_dict) : Prop :=
  (∀ p, declares_group e p →
        group d = Some ("ROOT/" +:+ replace (ascii_of_N 92) (ascii_of_N 47) p)
        ∧ "group" ∈ json_keys (to_json d))
  ∧ ((∀ p, ¬ declares_group e p) →
     group d = None ∧ "group" ∉ json_keys (to_json d)).

(** Every reference in the list points into the store. *)
Definition valid_refs (st : locals) : Prop :=
  ∀ r, r ∈ v_connections st → (r < length (heap st))%nat.

(** The elements that hold concealed credentials. *)
Definition password_tag (t : string) : bool :=
  bool_decide (t ∈ ["SafePassword"; "MsSafePassword"]).

(** The document with the text of every password element blanked: two
    documents differ only in their password texts when this makes them
    equal. *)
Fixpoint erase_passwords (e : Element) : Element :=
  match e with
  | Elem t x cs =>
      Elem t (if password_tag t then None else x)
        (List.map erase_passwords cs)
  end.

(** No record in the store has a ["password"] parameter. *)
Definition password_free (st : locals) : Prop :=
  Forall (λ d, "password" ∉ keys (parameters d)) (heap st).

(** The record [d] was built from the element [e]: it is what the branch of
    the type of [e] makes of [e] and its section, under the name the name
    check gave it. *)
Definition built_from (e : Element) (d : guac_dict) : Prop :=
  ∃ sec d0, type_section e = Some sec
            ∧ build (connection_type e) e sec = Ok d0
            ∧ d = set_name (name d) d0.

(** The references of the state point into the store. *)
Definition state_ok (st : locals) : Prop :=
  valid_refs st
  ∧ ∀ r, v_guac_connection st = Some r → (r < length (heap st))%nat.

(** The references [rs] the loop appends for the elements [es] after the
    reference [prev]: one for each element, and for an element without its
    section the reference appended just before. *)
Fixpoint stale_refs (prev : option nat) (es : list Element) (rs : list nat)
  : Prop :=
  match es, rs with
  | [], [] => True
  | e :: es', r :: rs' =>
      (type_section e = None → prev = Some r) ∧ stale_refs (Some r) es' rs'
  | _, _ => False
  end.

(** The characters of a string. *)
Fixpoint chars (s : string) : list ascii :=
  match s with
  | EmptyString => []
  | String c s' => c :: chars s'
  end.

End Rdm.

(** ** [guacamole-export.py] *)
Module GuacamoleExport.
Import Py.

Definition DB_HOST : string := "localhost".
Definition DB_PORT : string := "5432".
Definition DB_NAME : string := "guacamole_db".
Definition DB_USER : string := "guacamole_user".
Definition DB_PASS : string := "guacamole_user_password".
Definition OUTPUT_FILE : string := "guacamole_connections_db_export.json".

(** A row of the query: a tuple in the order of its SELECT list,
    [c.connection_id, c.connection_name, 'ROOT/' || COALESCE(...) AS
    group_path, c.protocol, p.parameter_name, p.parameter_value].  A text
    column is [None] where the database has NULL. *)
Definition row : Type :=
  Z * option string * option string * option string
    * option string * option string.

Definition connection_id (r : row) : Z :=
  let '(c1, _, _, _, _, _) := r in c1.
Definition connection_name (r : row) : option string :=
  let '(_, c2, _, _, _, _) := r in c2.
Definition group_path (r : row) : option string :=
  let '(_, _, c3, _, _, _) := r in c3.
Definition protocol_column (r : row) : option string :=
  let '(_, _, _, c4, _, _) := r in c4.
Definition parameter_name (r : row) : option string :=
  let '(_, _, _, _, c5, _) := r in c5.
Definition parameter_value (r : row) : option string :=
  let '(_, _, _, _, _, c6) := r in c6.

(** A connection object, with its keys in the order of the literal. *)
Record connection := {
  name : option string;
  protocol : option string;
  group : option string;
  parameters : list (string * option string)
}.

(** [c["parameters"][k] = v] *)
Definition set_parameter (k : string) (v : option string) (c : connection)
  : connection :=
  {| name := name c; protocol := protocol c; group := group c;
     parameters := setitem k v (parameters c) |}.

(** [m[k]] changed in place by [f]; nothing where [k] is not a key. *)
Fixpoint update {K V} `{EqDecision K} (k : K) (f : V → V)
    (m : list (K * V)) : list (K * V) :=
  match m with
  | [] => []
  | (k', v) :: m' =>
      if decide (k' = k) then (k', f v) :: m' else (k', v) :: update k f m'
  end.

(** One iteration of [for row in rows]. *)
Definition loop_body (connections_map : list (Z * connection)) (r : row)
  : list (Z * connection) :=
  let '(conn_id, name, parent_id, group_name, param_name, param_value) := r in
  let connections_map :=
    if bool_decide (conn_id ∉ keys connections_map) then
      setitem conn_id
        {| name := name; protocol := group_name; group := parent_id;
           parameters := [] |}
        connections_map
    else connections_map in
  match param_name with
  | Some k => update conn_id (set_parameter k param_value) connections_map
  | None => connections_map
  end.

Definition build_map (rows : list row) : list (Z * connection) :=
  foldl loop_body [] rows.

Definition build_connection_dict (rows : list row) : list connection :=
  values (build_map rows).

(** *** The words of the specification *)

(** The rows of one connection, in the order of the query. *)
Definition rows_of (conn_id : Z) (rows : list row) : list row :=
  filter (λ r, connection_id r = conn_id) rows.

(** The record the first row of a connection creates. *)
Definition new_connection (r : row) : connection :=
  {| name := connection_name r; protocol := protocol_column r;
     group := group_path r; parameters := [] |}.

(** What a row adds to the record of its connection. *)
Definition add_row (c : connection) (r : row) : connection :=
  match parameter_name r with
  | Some k => set_parameter k (parameter_value r) c
  | None => c
  end.

(** The record of a connection after its rows [rs], from the record
    [start] it had before (if any). *)
Definition record_of (start : option connection) (rs : list row)
  : option connection :=
  foldl (λ o r, Some (add_row (default (new_connection r) o) r)) start rs.

(** The distinct elements of a list in the order of their first
    occurrence ([remove_dups] keeps the last occurrence of each). *)
Definition first_seen (l : list Z) : list Z :=
  reverse (remove_dups (reverse l)).

Definition to_json (c : connection) : Json.json :=
  Json.JDict
    [("name", Json.of_pyval (of_text (name c)));
     ("protocol", Json.of_pyval (of_text (protocol c)));
     ("group", Json.of_pyval (of_text (group c)));
     ("parameters",
      Json.JDict
        ((λ kv, (fst kv, Json.of_pyval (of_text (snd kv)))) <$> parameters c))].

(** *** The run of the script

    What the outside world answers: [psycopg2.connect] succeeds or raises
    [psycopg2.Error e]; [cursor.execute] returns rows or raises
    [psycopg2.Error e]; opening and writing the output file succeeds or
    raises [IOError e]. *)
Record world := {
  connect_error : option string;
  query_result : string + list row;
  write_error : option string
}.

(** What the script does that can be seen from outside. *)
Inductive event :=
| Print (line : string)
| SessionOpened
| CursorOpened
| CursorClosed
| FileWritten (path content : string)
| SessionClosed.

(** A statement either completes with a value or leaves through
    [sys.exit(status)]. *)
Inductive outcome (A : Type) :=
| Return (a : A)
| SystemExit (status : Z).
Arguments Return {A} a.
Arguments SystemExit {A} status.

(** A piece of the script: the events it causes and how it ends. *)
Definition prog (A : Type) : Type := list event * outcome A.

Definition ret {A} (a : A) : prog A := ([], Return a).

Definition bind {A B} (m : prog A) (k : A → prog B) : prog B :=
  match m with
  | (t, Return a) => let '(t', o) := k a in (t ++ t', o)
  | (t, SystemExit n) => (t, SystemExit n)
  end.

Definition tell (e : event) : prog unit := ([e], Return tt).
Definition print (line : string) : prog unit := tell (Print line).
Definition sys_exit {A} (status : Z) : prog A := ([], SystemExit status).

(** [try: body finally: cleanup]: [cleanup] runs however [body] ends, and
    the way [body] ended stands unless [cleanup] itself exits. *)
Definition try_finally {A} (body : prog A) (cleanup : prog unit) : prog A :=
  let '(t, o) := body in
  match cleanup with
  | (t', Return _) => (t ++ t', o)
  | (t', SystemExit n) => (t ++ t', SystemExit n)
  end.

Global Instance prog_ret : MRet prog := @ret.
Global Instance prog_bind : MBind prog := λ A B k m, bind m k.

Definition connect_to_db (w : world) : prog unit :=
  match connect_error w with
  | None => tell SessionOpened
  | Some e =>
      print ("Error connecting to PostgreSQL database: " +:+ e);;
      sys_exit 1
  end.

Definition fetch_connections_and_params (w : world) : prog (list row) :=
  tell CursorOpened;;
  try_finally
    (match query_result w with
     | inr rows => mret rows
     | inl e =>
         print ("Error executing database query: " +:+ e);;
         sys_exit 1
     end)
    (tell CursorClosed).

Definition len {A} (l : list A) : string := str (PInt (Z.of_nat (length l))).

Definition main (w : world) : prog unit :=
  print "Starting Guacamole PostgreSQL Export Script...";;
  print ("Target Database: " +:+ DB_NAME +:+ " on " +:+ DB_HOST +:+ ":" +:+ DB_PORT);;
  print ("Target Output File: " +:+ OUTPUT_FILE);;
  (if forallb (λ s, truthy (Some s)) [DB_HOST; DB_PORT; DB_NAME; DB_USER; DB_PASS]
   then mret tt
   else print "Error: Please configure all DB_* variables in the script.";;
        sys_exit 1);;
  print (Json.newline +:+ "Connecting to PostgreSQL database...");;
  conn ← connect_to_db w;
  print "Connected successfully.";;
  print (Json.newline +:+ "Fetching connections and parameters from database...");;
  raw_data ← fetch_connections_and_params w;
  print ("Fetched " +:+ len raw_data +:+ " parameter rows.");;
  print (Json.newline +:+ "Building connection objects...");;
  let connections_list := build_connection_dict raw_data in
  print ("Built " +:+ len connections_list +:+ " connection objects.");;
  let export_data := connections_list in
  print (Json.newline +:+ "Writing export to " +:+ OUTPUT_FILE +:+ "...");;
  try_finally
    (match write_error w with
     | None =>
         tell (FileWritten OUTPUT_FILE
                 (Json.dumps false (Json.JList (to_json <$> export_data))));;
         print ("Export completed successfully. Data written to '" +:+ OUTPUT_FILE +:+ "'.");;
         print "*** WARNING: This file contains sensitive data including ENCRYPTED passwords stored in the database. Store it securely and delete it after use. ***"
     | Some e =>
         print ("Error writing to file " +:+ OUTPUT_FILE +:+ ": " +:+ e);;
         sys_exit 1
     end)
    (tell SessionClosed;;
     print "Database connection closed.").

(** The process: its events and its exit status. *)
Definition run (w : world) : list event * Z :=
  match main w with
  | (t, Return _) => (t, 0)
  | (t, SystemExit n) => (t, n)
  end.

End GuacamoleExport.

(** ** Sample inputs *)
Module Samples.
Import Py ET.

Definition leaf (t x : string) : Element := Elem t (Some x) [].
Definition empty (t : string) : Element := Elem t None [].
Definition node (t : string) (cs : list Element) : Element := Elem t None cs.

(** One SSH connection that has no [Terminal] section. *)
Definition ssh_without_terminal : Element :=
  node "ArrayOfConnection"
    [node "Connection"
       [leaf "ConnectionType" "SSHShell"; leaf "Name" "Server1"]].

(** An SSH connection in a group and an RDP connection with the same
    name, followed by a connection of a type the converter does not
    know. *)
Definition ssh_server1 (password : string) : Element :=
  node "Connection"
    [leaf "ConnectionType" "SSHShell"; leaf "Name" "Server1";
     leaf "Group" "A\B\C";
     node "Terminal"
       [leaf "Host" "10.0.0.1"; leaf "HostPort" "2222";
        leaf "Username" "root"; leaf "SafePassword" password]].

Definition rdp_server1 : Element :=
  node "Connection"
    [leaf "ConnectionType" "RDP"; leaf "Name" "Server1";
     leaf "Url" "10.0.0.2";
     node "RDP" [leaf "UserName" "admin"; leaf "Domain" "CORP"]].

Definition two_servers (password : string) : Element :=
  node "ArrayOfConnection"
    [ssh_server1 password; rdp_server1;
     node "Connection" [leaf "ConnectionType" "WebBrowser"]].

(** A VNC connection whose [Port] element is there but empty. *)
Definition vnc_empty_port : Element :=
  node "Connection"
    [leaf "ConnectionType" "VNC";
     node "VNC" [leaf "Host" "10.0.0.3"; empty "Port"]].

Definition document_with_empty_port : Element :=
  node "ArrayOfConnection" [vnc_empty_port].

(** The two parameter rows of connection 5, and a connection without
    parameters as the outer join returns it. *)
Definition rows_of_5 : list GuacamoleExport.row :=
  [(5, Some "srv", Some "ROOT/lab", Some "rdp",
    Some "hostname", Some "10.0.0.1");
   (5, Some "srv", Some "ROOT/lab", Some "rdp", Some "port", Some "3389")].

Definition row_without_parameters : GuacamoleExport.row :=
  (7, Some "web", Some "ROOT/dmz", Some "ssh", None, None).

(** A database that accepts the session and refuses the query. *)
Definition query_fails : GuacamoleExport.world :=
  {| GuacamoleExport.connect_error := None;
     GuacamoleExport.query_result := inl "relation does not exist";
     GuacamoleExport.write_error := None |}.

Definition write_fails : GuacamoleExport.world :=
  {| GuacamoleExport.connect_error := None;
     GuacamoleExport.query_result := inr rows_of_5;
     GuacamoleExport.write_error := Some "Permission denied" |}.

Definition all_well : GuacamoleExport.world :=
  {| GuacamoleExport.connect_error := None;
     GuacamoleExport.query_result := inr rows_of_5;
     GuacamoleExport.write_error := None |}.

(** A second RDP connection named as the others. *)
Definition rdp_server1_again : Element :=
  node "Connection"
    [leaf "ConnectionType" "RDPConfigured"; leaf "Name" "Server1";
     node "RDP"
       [node "Host" [leaf "Name" "gateway"]; leaf "Port" "3390";
        leaf "ScreenSizingMode" "FullScreen"]].

Definition three_servers : Element :=
  node "ArrayOfConnection"
    [ssh_server1 "x"; rdp_server1; rdp_server1_again].

(** A VNC connection that lacks its [VNC] section and declares the group
    [Lab]. *)
Definition vnc_without_section : Element :=
  node "Connection"
    [leaf "ConnectionType" "VNC"; leaf "Name" "Screen"; leaf "Group" "Lab"].

(** An SSH connection followed by one that lacks its section. *)
Definition ssh_then_no_section : Element :=
  node "ArrayOfConnection" [ssh_server1 "x"; vnc_without_section].

(** The same with a complete connection after the one that lacks its
    section. *)
Definition ssh_gap_rdp : Element :=
  node "ArrayOfConnection" [ssh_server1 "x"; vnc_without_section; rdp_server1].

(** A port written with the superscript digit two, U+00B2. *)
Definition superscript_two : string := String (ascii_of_N 178) EmptyString.

Definition vnc_superscript_port : Element :=
  node "Connection"
    [leaf "ConnectionType" "VNC";
     node "VNC" [leaf "Host" "10.0.0.3"; leaf "Port" superscript_two]].

(** A document without any connection the converter knows. *)
Definition nothing_supported : Element :=
  node "ArrayOfConnection"
    [node "Connection" [leaf "ConnectionType" "WebBrowser"];
     node "Connection" [leaf "Name" "untyped"]].

(** Rows of two connections, interleaved, with a parameter given twice. *)
Definition interleaved_rows : list GuacamoleExport.row :=
  [(2, Some "b", Some "ROOT/", Some "vnc", Some "port", Some "5900");
   (1, Some "a", Some "ROOT/x", Some "ssh", Some "port", Some "22");
   (2, Some "b", Some "ROOT/", Some "vnc", Some "port", Some "5901");
   (1, Some "a", Some "ROOT/x", Some "ssh", Some "hostname", Some "h")].

(** Two rows of connection 5 that give the parameter [port], with
    different values. *)
Definition port_given_twice : list GuacamoleExport.row :=
  [(5, Some "srv", Some "ROOT/lab", Some "rdp", Some "port", Some "3389");
   (5, Some "srv", Some "ROOT/lab", Some "rdp", Some "port", Some "3390")].

Definition connect_fails : GuacamoleExport.world :=
  {| GuacamoleExport.connect_error := Some "connection refused";
     GuacamoleExport.query_result := inr [];
     GuacamoleExport.write_error := None |}.

(** An RDP connection with a [Host] in its section and a [Url] of its
    own. *)
Definition rdp_with_host : Element :=
  node "Connection"
    [leaf "ConnectionType" "RDP"; leaf "Url" "10.0.0.2";
     node "RDP"
       [leaf "Host" "10.9.9.9"; leaf "Domain" "CORP";
        leaf "ScreenSizingMode" "FitToWindow"]].

Definition rdp_section_with_host : Element :=
  node "RDP"
    [leaf "Host" "10.9.9.9"; leaf "Domain" "CORP";
     leaf "ScreenSizingMode" "FitToWindow"].

End Samples.

(** * Properties of the document converter *)
Module RdmProofs.
Import Py ET Rdm.

(** ** Elements *)

(** Induction on an element with the hypothesis for all its children. *)
Lemma Element_ind' (P : Element → Prop) :
  (∀ t x cs, Forall P cs → P (Elem t x cs)) → ∀ e, P e.
Proof.
  intros H. fix IH 1. intros [t x cs]. apply H.
  induction cs as [|c cs IHcs]; [apply Forall_nil_2|].
  apply Forall_cons_2; [apply IH | exact IHcs].
Qed.

Lemma iter_unfold t x cs :
  iter (Elem t x cs) = Elem t x cs :: flat_map iter cs.
Proof.
  reflexivity.
Qed.

Lemma find_has_tag t e c : find t e = Some c → tag c = t.
Proof.
  unfold find. intros H. apply find_some in H as [_ H].
  unfold has_tag in H. by apply bool_decide_eq_true in H.
Qed.

(** ** The [while] loop ends *)

Lemma name_loop_unfold fuel used o p u c :
  name_loop (S fuel) used o (Some p) u c =
    if bool_decide (u ∈ used)
    then name_loop fuel used o (Some p) (Some (candidate o p c)) (c + 1)
    else Ok u.
Proof. reflexivity. Qed.

Lemma candidate_inj o p c1 c2 :
  1 < c1 → 1 < c2 → candidate o p c1 = candidate o p c2 → c1 = c2.
Proof.
  intros H1 H2. unfold candidate.
  rewrite !(proj2 (Z.ltb_lt _ _)) by done.
  intros H. apply (inj (String.app _)) in H.
  apply (inj (String.app _)) in H. simpl in H.
  by apply (inj pretty) in H.
Qed.

(** When the loop runs out of fuel, every name it tried is in use. *)
Lemma name_loop_out_of_fuel fuel used o p u c :
  name_loop fuel used o (Some p) u c = OutOfFuel →
  u ∈ used ∧
  ∀ k, 0 ≤ k < Z.of_nat fuel → Some (candidate o p (c + k)) ∈ used.
Proof.
  revert u c. induction fuel as [|fuel IH]; intros u c.
  - simpl. case_bool_decide; [|done]. intros _. split; [done|lia].
  - rewrite name_loop_unfold. case_bool_decide as Hu; [|done].
    intros H. apply IH in H as [H0 Hk]. split; [done|].
    intros k Hk'. destruct (decide (k = 0)) as [->|].
    + by rewrite Z.add_0_r.
    + replace (c + k) with (c + 1 + (k - 1)) by lia. apply Hk. lia.
Qed.

Lemma name_loop_fuel used o p u :
  name_loop (2 + size used) used o (Some p) u 1 ≠ OutOfFuel.
Proof.
  intros H. apply name_loop_out_of_fuel in H as [_ H].
  set (tried := (λ k, Some (candidate o p k))
                  <$> seqZ 2 (Z.of_nat (S (size used)))).
  assert (NoDup tried) as Hnd.
  { apply NoDup_fmap_2_strong; [|apply NoDup_seqZ].
    intros k1 k2 H1%elem_of_seqZ H2%elem_of_seqZ [=].
    eapply candidate_inj; [| |done]; lia. }
  assert (list_to_set tried ⊆ used) as Hsub.
  { intros x. rewrite elem_of_list_to_set. unfold tried.
    intros (k & -> & Hk%elem_of_seqZ)%list_elem_of_fmap.
    replace k with (1 + (k - 1)) by lia. apply H. lia. }
  apply subseteq_size in Hsub. rewrite size_list_to_set in Hsub by done.
  unfold tried in Hsub. rewrite length_fmap, length_seqZ in Hsub. lia.
Qed.

(** With [protocol] bound, the loop returns a name that is not in use. *)
Lemma name_loop_fresh_gen fuel used o p u c r :
  name_loop fuel used o (Some p) u c = r → r ≠ OutOfFuel →
  ∃ n, r = Ok n ∧ n ∉ used.
Proof.
  revert u c. induction fuel as [|fuel IH]; intros u c.
  - simpl. case_bool_decide; intros <-; [done|eauto].
  - rewrite name_loop_unfold. case_bool_decide; [apply IH|].
    intros <-; eauto.
Qed.

Lemma name_loop_fresh used o p u :
  ∃ n, name_loop (2 + size used) used o (Some p) u 1 = Ok n ∧ n ∉ used.
Proof.
  eapply name_loop_fresh_gen; [done|apply name_loop_fuel].
Qed.

(** ** Dictionaries *)

Lemma elem_of_keys_setitem {K V} `{!EqDecision K} (x k : K) (v : V) d :
  x ∈ keys (setitem k v d) → x = k ∨ x ∈ keys d.
Proof.
  unfold keys. induction d as [|[k' v'] d IH]; cbn.
  - rewrite elem_of_cons. tauto.
  - case_decide; cbn; rewrite !elem_of_cons; [tauto|].
    intros [->|Hx]; [tauto|]. apply IH in Hx. tauto.
Qed.

(** ** The branches *)

Lemma recognized_type_cases ty :
  recognized_type ty = true →
  ty = Some "SSHShell" ∨ ty = Some "RDP" ∨ ty = Some "RDPConfigured"
  ∨ ty = Some "VNC".
Proof.
  unfold recognized_type. intros H%bool_decide_eq_true.
  rewrite !elem_of_cons, elem_of_nil in H. tauto.
Qed.

Lemma branch_unrecognized st e ty :
  recognized_type ty = false → branch st e ty = Ok None.
Proof.
  unfold recognized_type, branch. intros H%bool_decide_eq_false.
  rewrite !elem_of_cons, elem_of_nil in H.
  rewrite (bool_decide_eq_false_2 (ty = Some "SSHShell")) by tauto.
  rewrite (bool_decide_eq_false_2 (ty ∈ _)).
  2: { rewrite !elem_of_cons, elem_of_nil. tauto. }
  by rewrite (bool_decide_eq_false_2 (ty = Some "VNC")) by tauto.
Qed.

Lemma branch_recognized st e ty :
  recognized_type ty = true →
  branch st e ty =
    match find (section_tag ty) e with
    | Some sec =>
        d ← build ty e sec; mret (Some (assign st d (type_label ty)))
    | None => mret (Some st)
    end.
Proof.
  intros [->|[->|[->| ->]]]%recognized_type_cases; reflexivity.
Qed.

Lemma port_of_readable pe dflt :
  readable_port pe = true → ∃ z, port_of pe dflt = Ok z.
Proof.
  unfold readable_port, port_of. destruct pe as [p|]; [|eauto].
  destruct (text p) as [t|]; [|done]. unfold int.
  destruct (isdigit t); simpl; [|eauto].
  intros [-> H]%andb_true_iff. apply negb_true_iff in H as ->. eauto.
Qed.

Lemma port_of_no_text p dflt :
  text p = None → port_of (Some p) dflt = Raise AttributeError.
Proof. unfold port_of. by intros ->. Qed.

(** What a branch puts into its record. *)
Lemma build_bind ty e sec :
  recognized_type ty = true →
  match port_of (find (port_tag ty) sec) (default_port ty) with
  | Ok z =>
      ∃ d, build ty e sec = Ok d
           ∧ group d = guac_group_path (text_or_empty (find "Group" e))
           ∧ (∀ n, find "Name" e = Some n → name d = text n)
           ∧ "password" ∉ keys (parameters d)
  | Raise x => build ty e sec = Raise x
  | OutOfFuel => build ty e sec = OutOfFuel
  end.
Proof.
  intros [->|[->|[->| ->]]]%recognized_type_cases;
    unfold build, port_tag, default_port, ssh_connection, rdp_connection,
      vnc_connection; simpl.
  all: destruct (port_of _ _) as [z| |]; simpl; [|done..].
  all: eexists; split; [reflexivity|]; simpl.
  all: split; [reflexivity|].
  all: split; [by intros n ->|].
  all: repeat case_bool_decide; repeat destruct (truthy _).
  all: intros Hp;
    repeat (apply elem_of_keys_setitem in Hp as [Hp|Hp]; [done|]).
  all: unfold keys in Hp; cbn in Hp.
  all: repeat (apply elem_of_cons in Hp as [?|Hp]; [done|]).
  all: by apply elem_of_nil in Hp.
Qed.

(** ** The name check *)

#[local] Arguments name_uniqueness_check : simpl never.
#[local] Arguments name_loop : simpl never.
#[local] Arguments assign : simpl never.

Lemma check_after_assign st d label :
  ∃ n, (name_loop (2 + size (v_used_names st)) (v_used_names st) (name d)
          (Some label) (name d) 1 = Ok n)
       ∧ (n ∉ v_used_names st)
       ∧ name_uniqueness_check (assign st d label) =
           Ok {| heap := heap st ++ [set_name n d];
                 v_connections := v_connections st ++ [length (heap st)];
                 v_used_names := {[n]} ∪ v_used_names st;
                 v_guac_connection := Some (length (heap st));
                 v_protocol := Some label |}.
Proof.
  destruct (name_loop_fresh (v_used_names st) (name d) label (name d))
    as (n & Hn & Hfresh).
  exists n. split; [done|]. split; [done|].
  unfold name_uniqueness_check, assign. cbn [v_guac_connection heap
    v_used_names v_protocol v_connections].
  rewrite list_lookup_total_middle by done.
  rewrite Hn. cbn. do 2 f_equal.
  rewrite <- (Nat.add_0_r (length (heap st))) at 1.
  by rewrite insert_app_r.
Qed.

Lemma check_length st st' :
  name_uniqueness_check st = Ok st' →
  length (v_connections st') = S (length (v_connections st)).
Proof.
  unfold name_uniqueness_check.
  destruct (v_guac_connection st) as [r|]; [|done].
  destruct (name_loop _ _ _ _ _ _) as [n| |]; cbn; [|done..].
  intros [= <-]. cbn. rewrite length_app. cbn. lia.
Qed.

(** ** One iteration *)

Lemma loop_body_skip st e :
  recognized e = false → loop_body st e = Ok st.
Proof.
  unfold recognized, loop_body.
  destruct (find "ConnectionType" e) as [t|]; [|done].
  intros H. by rewrite branch_unrecognized.
Qed.

(** Each iteration that returns leaves one more record for a recognized
    element and the list as it was for any other. *)
Lemma loop_body_length st e st' :
  loop_body st e = Ok st' →
  length (v_connections st') =
    (length (v_connections st) + if recognized e then 1 else 0)%nat.
Proof.
  destruct (recognized e) eqn:Hrec.
  - unfold recognized, loop_body in *.
    destruct (find "ConnectionType" e) as [t|]; [|done].
    rewrite branch_recognized by done.
    destruct (find (section_tag _) e) as [sec|]; cbn.
    + destruct (build _ _ _) as [d| |]; cbn; [|done..].
      intros ->%check_length. unfold assign. cbn. lia.
    + intros ->%check_length. lia.
  - rewrite loop_body_skip by done. intros [= <-]. lia.
Qed.

(** For a recognized element with its section, an iteration is the
    branch of its type followed by the name check on the new object. *)
Lemma loop_body_section st e sec :
  recognized e = true → type_section e = Some sec →
  loop_body st e =
    d ← build (connection_type e) e sec;
    name_uniqueness_check (assign st d (type_label (connection_type e))).
Proof.
  unfold recognized, type_section, connection_type, loop_body.
  destruct (find "ConnectionType" e) as [t|]; [|done]. cbn.
  intros Hrec Hsec. rewrite branch_recognized, Hsec by done.
  by destruct (build _ _ _).
Qed.

Lemma loop_body_built st e sec st' :
  recognized e = true → type_section e = Some sec →
  loop_body st e = Ok st' →
  ∃ d n,
    build (connection_type e) e sec = Ok d
    ∧ (name_loop (2 + size (v_used_names st)) (v_used_names st) (name d)
         (Some (type_label (connection_type e))) (name d) 1 = Ok n)
    ∧ (n ∉ v_used_names st)
    ∧ st' = appended st d n (type_label (connection_type e)).
Proof.
  intros Hrec Hsec. rewrite (loop_body_section _ _ sec) by done.
  destruct (build _ _ _) as [d| |]; cbn; [|done..].
  destruct (check_after_assign st d (type_label (connection_type e)))
    as (n & Hn & Hfresh & ->).
  intros [= <-]. by exists d, n.
Qed.

(** A complete recognized element gets a record of its own, under a name
    not used before. *)
Lemma loop_body_complete st e :
  recognized e = true → complete e = true →
  ∃ sec d n,
    type_section e = Some sec
    ∧ build (connection_type e) e sec = Ok d
    ∧ (name_loop (2 + size (v_used_names st)) (v_used_names st) (name d)
         (Some (type_label (connection_type e))) (name d) 1 = Ok n)
    ∧ (n ∉ v_used_names st)
    ∧ loop_body st e = Ok (appended st d n (type_label (connection_type e))).
Proof.
  intros Hrec Hc. unfold complete, port_element in Hc.
  destruct (type_section e) as [sec|] eqn:Hsec; [|done]. cbn in Hc.
  apply (port_of_readable _ (default_port (connection_type e))) in Hc
    as [z Hz].
  assert (recognized_type (connection_type e) = true) as Hty.
  { unfold recognized, connection_type in *.
    by destruct (find "ConnectionType" e). }
  pose proof (build_bind (connection_type e) e sec Hty) as Hb.
  rewrite Hz in Hb. destruct Hb as (d & Hd & _).
  rewrite (loop_body_section _ _ sec), Hd by done. cbn.
  destruct (check_after_assign st d (type_label (connection_type e)))
    as (n & Hn & Hfresh & ->).
  by exists sec, d, n.
Qed.

Lemma connections_appended st d n label :
  (∀ r, r ∈ v_connections st → (r < length (heap st))%nat) →
  connections (appended st d n label) = connections st ++ [set_name n d].
Proof.
  intros Hv. unfold connections, appended. cbn.
  rewrite fmap_app. cbn. rewrite list_lookup_total_middle by done.
  f_equal. apply list_fmap_ext. intros i r Hr.
  apply lookup_total_app_l, Hv. by eapply list_elem_of_lookup_2.
Qed.

Lemma last_connections_appended st d n label :
  last (connections (appended st d n label)) = Some (set_name n d).
Proof.
  unfold connections, appended. cbn. rewrite fmap_app. cbn.
  by rewrite last_snoc, list_lookup_total_middle.
Qed.

(** ** The whole loop *)

Lemma for_each_length l : ∀ st st',
  for_each st l = Ok st' →
  length (v_connections st') =
    (length (v_connections st) + length (List.filter recognized l))%nat.
Proof.
  induction l as [|e l IH]; intros st st'; cbn.
  - intros [= <-]. lia.
  - destruct (loop_body st e) as [st1| |] eqn:He; cbn; [|done..].
    intros ->%IH. apply loop_body_length in He as ->.
    destruct (recognized e); cbn; lia.
Qed.

Lemma for_each_complete l : ∀ st,
  (∀ e, e ∈ l → recognized e = true → complete e = true) →
  ∃ st', for_each st l = Ok st'.
Proof.
  induction l as [|e l IH]; intros st Hl; cbn; [eauto|].
  destruct (recognized e) eqn:Hrec.
  - destruct (loop_body_complete st e Hrec) as (?&?&?&_&_&_&_& ->).
    { apply Hl; [left|done]. }
    cbn. apply IH. intros e' He'. apply Hl. by right.
  - rewrite loop_body_skip by done. cbn.
    apply IH. intros e' He'. apply Hl. by right.
Qed.

Lemma for_each_filter l : ∀ st,
  for_each st (List.filter recognized l) = for_each st l.
Proof.
  induction l as [|e l IH]; intros st; cbn; [done|].
  destruct (recognized e) eqn:Hrec; cbn.
  - destruct (loop_body st e); cbn; auto.
  - by rewrite loop_body_skip, IH.
Qed.

(** Whenever the converter returns a list, it holds one record for each
    recognized element. *)
Lemma returned_count root l :
  convert_elements root = Ok l → length l = length (recognized_elements root).
Proof.
  unfold convert_elements, recognized_elements.
  destruct (for_each _ _) as [st| |] eqn:Hst; cbn; [|done..].
  intros [= <-]. apply for_each_length in Hst.
  unfold connections. rewrite length_fmap, Hst. done.
Qed.

(** ** Ports *)

Lemma recognized_connection_type e :
  recognized e = true → recognized_type (connection_type e) = true.
Proof.
  unfold recognized, connection_type.
  by destruct (find "ConnectionType" e).
Qed.

(** ** Group paths *)

Lemma replace_length a b s :
  String.length (replace a b s) = String.length s.
Proof. induction s as [|c s IH]; cbn; [done|by rewrite IH]. Qed.

Lemma replace_get a b s i :
  String.get i (replace a b s) =
    (λ c, if Ascii.eqb c a then b else c) <$> String.get i s.
Proof.
  revert i. induction s as [|c s IH]; intros i; cbn; [done|].
  destruct i; [done|apply IH].
Qed.

Lemma built_group ty e sec d :
  recognized_type ty = true → build ty e sec = Ok d →
  group d = guac_group_path (text_or_empty (find "Group" e)).
Proof.
  intros Hty Hd. pose proof (build_bind ty e sec Hty) as Hb.
  destruct (port_of _ _); [|congruence..].
  destruct Hb as (d' & Hd' & Hg & _). congruence.
Qed.

Lemma built_name ty e sec d n :
  recognized_type ty = true → build ty e sec = Ok d →
  find "Name" e = Some n → name d = text n.
Proof.
  intros Hty Hd. pose proof (build_bind ty e sec Hty) as Hb.
  destruct (port_of _ _); [|congruence..].
  destruct Hb as (d' & Hd' & _ & Hn & _).
  assert (d' = d) as -> by congruence. apply Hn.
Qed.

Lemma built_no_password ty e sec d :
  recognized_type ty = true → build ty e sec = Ok d →
  "password" ∉ keys (parameters d).
Proof.
  intros Hty Hd. pose proof (build_bind ty e sec Hty) as Hb.
  destruct (port_of _ _); [|congruence..].
  destruct Hb as (d' & Hd' & _ & _ & Hp). congruence.
Qed.

Lemma group_rule_of_path e d :
  group d = guac_group_path (text_or_empty (find "Group" e)) →
  group_rule e d.
Proof.
  intros Hd. unfold group_rule, declares_group, to_json, json_keys.
  rewrite Hd. split.
  - intros p (g & -> & Hp & Hne). cbn. rewrite Hp. destruct p; [done|]. cbn.
    split; [done|]. rewrite !elem_of_cons. tauto.
  - intros Hno. destruct (find "Group" e) as [g|] eqn:Hg; cbn.
    + destruct (text g) as [[|c p]|] eqn:Hp; cbn.
      2: { destruct (Hno (String c p)). by exists g. }
      all: split; [done|]; rewrite !elem_of_cons, elem_of_nil.
      all: intros [?|[?|[?|?]]]; done.
    + split; [done|]. rewrite !elem_of_cons, elem_of_nil.
      intros [?|[?|[?|?]]]; done.
Qed.

Lemma valid_refs_appended st d n label :
  valid_refs st → valid_refs (appended st d n label).
Proof.
  unfold valid_refs, appended. cbn. intros Hst r.
  rewrite elem_of_app, list_elem_of_singleton, length_app. cbn.
  intros [Hr%Hst| ->]; lia.
Qed.

(** ** Name collisions *)

Lemma name_loop_unused fuel used o p u c :
  u ∉ used → name_loop fuel used o p u c = Ok u.
Proof.
  intros Hu. destruct fuel; unfold name_loop;
    by rewrite bool_decide_eq_false_2.
Qed.

Lemma declared_name_built e sec d s :
  recognized e = true → build (connection_type e) e sec = Ok d →
  declared_name e = Some s → name d = Some s.
Proof.
  intros Hrec Hd. unfold declared_name.
  destruct (find "Name" e) as [n|] eqn:Hn; [|done]. cbn. intros <-.
  eapply built_name; [by apply recognized_connection_type|done..].
Qed.

Lemma recognized_elements_recognized root e :
  e ∈ recognized_elements root → recognized e = true.
Proof.
  unfold recognized_elements. rewrite list_elem_of_In, filter_In. tauto.
Qed.

(** C3 (as amended).  When the recognized elements of a document are
    exactly two complete ones that both declare the name ["Server1"], and
    the second is of type [RDP], the converter returns two records named
    ["Server1"] and ["Server1 (RDP)"], in this order: the suffix of the
    first collision is the type label in upper case, without a number. *)
Theorem first_collision root e1 e2 :
  recognized_elements root = [e1; e2] →
  complete e1 = true → complete e2 = true →
  declared_name e1 = Some "Server1" → declared_name e2 = Some "Server1" →
  connection_type e2 = Some "RDP" →
  ∃ l, convert_elements root = Ok l
       ∧ name <$> l = [Some "Server1"; Some "Server1 (RDP)"].
Proof.
  intros Hroot Hc1 Hc2 Hn1 Hn2 Hty.
  assert (recognized e1 = true) as Hr1.
  { apply (recognized_elements_recognized root). rewrite Hroot. by left. }
  assert (recognized e2 = true) as Hr2.
  { apply (recognized_elements_recognized root). rewrite Hroot.
    by right; left. }
  unfold convert_elements. rewrite <- for_each_filter.
  fold (recognized_elements root). rewrite Hroot. cbn [for_each].
  destruct (loop_body_complete initial e1 Hr1 Hc1)
    as (sec1 & d1 & n1 & _ & Hd1 & Hl1 & _ & ->).
  apply (declared_name_built _ _ _ "Server1") in Hd1; [|done..].
  rewrite Hd1, name_loop_unused in Hl1 by set_solver.
  injection Hl1 as <-.
  set (st1 := appended initial d1 _ _). cbn [mbind result_bind bind].
  destruct (loop_body_complete st1 e2 Hr2 Hc2)
    as (sec2 & d2 & n2 & _ & Hd2 & Hl2 & _ & ->).
  apply (declared_name_built _ _ _ "Server1") in Hd2; [|done..].
  rewrite Hd2, Hty in Hl2. subst st1. cbn [appended v_used_names initial] in Hl2.
  change (2 + ?n)%nat with (S (S n)) in Hl2.
  rewrite name_loop_unfold, bool_decide_eq_true_2 in Hl2 by set_solver.
  rewrite name_loop_unfold, bool_decide_eq_false_2 in Hl2.
  2: { vm_compute candidate.
       rewrite elem_of_union, elem_of_singleton, elem_of_empty.
       by intros [[=]|[]]. }
  injection Hl2 as <-.
  eexists. split; [reflexivity|]. reflexivity.
Qed.

Lemma first_collision_witness :
  ∃ l, convert_elements (Samples.two_servers "x") = Ok l
       ∧ name <$> l = [Some "Server1"; Some "Server1 (RDP)"].
Proof.
  apply (first_collision (Samples.two_servers "x")
           (Samples.ssh_server1 "x") Samples.rdp_server1); reflexivity.
Defined.

(** C3 as stated fails: the second name carries the label ["RDP"] of
    the variable [protocol], not the protocol ["rdp"] of the record. *)
Lemma first_collision_counterexample :
  recognized_elements (Samples.two_servers "x")
    = [Samples.ssh_server1 "x"; Samples.rdp_server1]
  ∧ ∃ l, convert_elements (Samples.two_servers "x") = Ok l
         ∧ name <$> l = [Some "Server1"; Some "Server1 (RDP)"]
         ∧ name <$> l ≠ [Some "Server1"; Some "Server1 (rdp)"].
Proof.
  split; [reflexivity|].
  eexists. split; [by vm_compute|]. by split.
Qed.

(** ** Passwords *)

Lemma tag_erase e : tag (erase_passwords e) = tag e.
Proof. by destruct e. Qed.

Lemma children_erase e :
  children (erase_passwords e) = erase_passwords <$> children e.
Proof. by destruct e. Qed.

Lemma text_erase e :
  password_tag (tag e) = false → text (erase_passwords e) = text e.
Proof. destruct e as [t x cs]. cbn. by intros ->. Qed.

Lemma truth_erase e : truth (erase_passwords e) = truth e.
Proof. unfold truth. rewrite children_erase. by destruct (children e). Qed.

Lemma find_erase t e :
  find t (erase_passwords e) = erase_passwords <$> find t e.
Proof.
  unfold find. rewrite children_erase.
  induction (children e) as [|c cs IH]; cbn; [done|].
  unfold has_tag at 1 3. rewrite tag_erase.
  by destruct (bool_decide (tag c = t)).
Qed.

Lemma text_find_erase t e :
  password_tag t = false →
  text <$> find t (erase_passwords e) = text <$> find t e.
Proof.
  intros Ht. rewrite find_erase.
  destruct (find t e) as [c|] eqn:Hc; cbn; [|done].
  apply find_has_tag in Hc as <-. by rewrite text_erase.
Qed.

Lemma text_or_empty_erase t e :
  password_tag t = false →
  text_or_empty (find t (erase_passwords e)) = text_or_empty (find t e).
Proof.
  intros Ht%(text_find_erase _ e). unfold text_or_empty.
  destruct (find t (erase_passwords e)), (find t e); naive_solver.
Qed.

Lemma port_of_erase t e dflt :
  password_tag t = false →
  port_of (find t (erase_passwords e)) dflt = port_of (find t e) dflt.
Proof.
  intros Ht%(text_find_erase _ e). unfold port_of.
  destruct (find t (erase_passwords e)), (find t e); cbn in Ht;
    [|done..]. by injection Ht as ->.
Qed.

Lemma name_of_erase e label host port :
  name_of (find "Name" (erase_passwords e)) label host port
  = name_of (find "Name" e) label host port.
Proof.
  pose proof (text_find_erase "Name" e eq_refl) as Ht. unfold name_of.
  destruct (find "Name" (erase_passwords e)), (find "Name" e);
    cbn in Ht; [|done..]. by injection Ht as ->.
Qed.

Lemma or_else_erase t1 t2 sec e :
  password_tag t1 = false → password_tag t2 = false →
  text_or_empty (or_else (find t1 (erase_passwords sec))
                   (find t2 (erase_passwords e)))
  = text_or_empty (or_else (find t1 sec) (find t2 e)).
Proof.
  intros H1 H2. pose proof (text_or_empty_erase t1 sec H1) as Ha.
  pose proof (text_or_empty_erase t2 e H2) as Hb.
  rewrite (find_erase t1 sec) in *. unfold or_else.
  destruct (find t1 sec) as [h|]; cbn in *; [|done].
  rewrite truth_erase. by destruct (truth h).
Qed.

Lemma build_erase ty e sec :
  build ty (erase_passwords e) (erase_passwords sec) = build ty e sec.
Proof.
  unfold build, ssh_connection, rdp_connection, vnc_connection.
  cbv zeta. rewrite !port_of_erase by done.
  destruct (bool_decide (ty = Some "SSHShell")),
    (bool_decide (ty = Some "VNC")).
  all: destruct (port_of _ _) as [port| |];
    cbn [mbind result_bind bind mret result_ret]; [|done..].
  all: rewrite !name_of_erase, ?or_else_erase by done.
  all: by rewrite ?(text_or_empty_erase "Group"),
    ?(text_or_empty_erase "Host"), ?(text_or_empty_erase "Username"),
    ?(text_or_empty_erase "RemoteCommand"),
    ?(text_or_empty_erase "UserName"), ?(text_or_empty_erase "Domain"),
    ?(text_or_empty_erase "ScreenSizingMode"),
    ?(text_or_empty_erase "MsUser") by done.
Qed.

Lemma branch_erase st e ty :
  branch st (erase_passwords e) ty = branch st e ty.
Proof.
  unfold branch. rewrite !find_erase.
  repeat case_bool_decide; try done.
  all: destruct (find _ e) as [sec|]; cbn [fmap option_fmap option_map];
    [|done].
  - by rewrite (build_erase (Some "SSHShell") e sec : ssh_connection _ _ = _).
  - by rewrite (build_erase (Some "RDP") e sec : rdp_connection _ _ = _).
  - by rewrite (build_erase (Some "VNC") e sec : vnc_connection _ _ = _).
Qed.

Lemma loop_body_erase st e :
  loop_body st (erase_passwords e) = loop_body st e.
Proof.
  unfold loop_body.
  pose proof (text_find_erase "ConnectionType" e eq_refl) as Ht.
  destruct (find "ConnectionType" (erase_passwords e)),
    (find "ConnectionType" e); cbn in Ht; [|done..].
  injection Ht as ->. by rewrite branch_erase.
Qed.

Lemma for_each_erase l : ∀ st,
  for_each st (erase_passwords <$> l) = for_each st l.
Proof.
  induction l as [|e l IH]; intros st; cbn; [done|].
  rewrite loop_body_erase. destruct (loop_body st e); cbn; auto.
Qed.

Lemma iter_erase e : iter (erase_passwords e) = erase_passwords <$> iter e.
Proof.
  induction e as [t x cs IH] using Element_ind'.
  change (erase_passwords (Elem t x cs))
    with (Elem t (if password_tag t then None else x)
            (erase_passwords <$> cs)).
  rewrite !iter_unfold. cbn. f_equal.
  induction IH as [|c cs Hc _ IHcs]; cbn; [done|].
  by rewrite Hc, IHcs, fmap_app.
Qed.

Lemma findall_erase t root :
  findall_descendants t (erase_passwords root)
  = erase_passwords <$> findall_descendants t root.
Proof.
  unfold findall_descendants. rewrite children_erase.
  assert (∀ l, List.filter (has_tag t) (erase_passwords <$> l)
               = erase_passwords <$> List.filter (has_tag t) l) as Hf.
  { induction l as [|c l IHl]; [done|].
    rewrite fmap_cons. cbn [List.filter]. rewrite IHl.
    replace (has_tag t (erase_passwords c)) with (has_tag t c)
      by (unfold has_tag; by rewrite tag_erase).
    by destruct (has_tag t c). }
  rewrite <- Hf. f_equal.
  induction (children root) as [|c cs IH]; cbn; [done|].
  by rewrite iter_erase, IH, fmap_app.
Qed.

(** The converter does not see the password texts. *)
Lemma convert_elements_erase root :
  convert_elements (erase_passwords root) = convert_elements root.
Proof.
  unfold convert_elements. by rewrite findall_erase, for_each_erase.
Qed.

Lemma loop_body_no_section st e :
  recognized e = true → type_section e = None →
  loop_body st e = name_uniqueness_check st.
Proof.
  unfold recognized, type_section, connection_type, loop_body.
  destruct (find "ConnectionType" e) as [t|]; [|done]. cbn.
  intros Hrec Hsec. by rewrite branch_recognized, Hsec by done.
Qed.

Lemma check_password_free st st' :
  name_uniqueness_check st = Ok st' → password_free st → password_free st'.
Proof.
  unfold name_uniqueness_check, password_free.
  destruct (v_guac_connection st) as [r|]; [|done].
  destruct (name_loop _ _ _ _ _ _) as [n| |]; cbn; [|done..].
  intros [= <-] Hst. cbn.
  destruct (decide (r < length (heap st))%nat) as [Hr|Hr].
  - apply Forall_insert; [done|]. cbn.
    apply lookup_lt_is_Some_2 in Hr as [d Hd].
    rewrite (list_lookup_total_correct _ _ _ Hd).
    by eapply (Forall_lookup_1 _ _ _ _ Hst).
  - by rewrite list_insert_ge by lia.
Qed.

Lemma loop_body_password_free st e st' :
  loop_body st e = Ok st' → password_free st → password_free st'.
Proof.
  destruct (recognized e) eqn:Hrec.
  - destruct (type_section e) as [sec|] eqn:Hsec.
    + intros (d & n & Hd & _ & _ & ->)%(loop_body_built _ _ sec); [|done..].
      intros Hst. apply Forall_app. split; [done|].
      apply Forall_singleton. cbn.
      eapply built_no_password; [|done].
      by apply recognized_connection_type.
    + rewrite loop_body_no_section by done. apply check_password_free.
  - rewrite loop_body_skip by done. by intros [= <-].
Qed.

Lemma for_each_password_free l : ∀ st st',
  for_each st l = Ok st' → password_free st → password_free st'.
Proof.
  induction l as [|e l IH]; intros st st'; cbn; [by intros [= <-]|].
  destruct (loop_body st e) as [st1| |] eqn:He; cbn; [|done..].
  intros Hl Hst. eapply IH; [done|]. by eapply loop_body_password_free.
Qed.

(** C6.  Two documents that differ only in the texts of their password
    elements ([SafePassword], [MsSafePassword]) give the same result of
    [convert_rdm_to_guac_json], the same JSON text or the same failure;
    and no record the converter returns has a ["password"] key among
    its parameters. *)
Theorem passwords_never_emitted fs1 fs2 path1 path2 root1 root2 :
  fs1 path1 = Document root1 → fs2 path2 = Document root2 →
  erase_passwords root1 = erase_passwords root2 →
  convert_rdm_to_guac_json fs1 path1 = convert_rdm_to_guac_json fs2 path2
  ∧ ∀ l d, convert_elements root1 = Ok l → d ∈ l →
           "password" ∉ keys (parameters d).
Proof.
  intros H1 H2 Heq. split.
  - unfold convert_rdm_to_guac_json. rewrite H1, H2.
    by rewrite <- (convert_elements_erase root1), Heq,
      convert_elements_erase.
  - intros l d. unfold convert_elements.
    destruct (for_each _ _) as [st| |] eqn:Hst; cbn; [|done..].
    intros [= <-]. apply for_each_password_free in Hst; [|constructor].
    unfold connections. intros (r & -> & _)%list_elem_of_fmap.
    rewrite list_lookup_total_alt.
    destruct (heap st !! r) as [d|] eqn:Hd; cbn.
    + by eapply (Forall_lookup_1 _ _ _ _ Hst).
    + apply not_elem_of_nil.
Qed.

Lemma passwords_never_emitted_witness :
  convert_rdm_to_guac_json (λ _, Document (Samples.two_servers "AbC=="))
    "old.rdm"
  = convert_rdm_to_guac_json (λ _, Document (Samples.two_servers "xYz0"))
      "new.rdm"
  ∧ ∀ l d, convert_elements (Samples.two_servers "AbC==") = Ok l → d ∈ l →
           "password" ∉ keys (parameters d).
Proof.
  apply (passwords_never_emitted
           (λ _, Document (Samples.two_servers "AbC=="))
           (λ _, Document (Samples.two_servers "xYz0"))
           "old.rdm" "new.rdm"
           (Samples.two_servers "AbC==") (Samples.two_servers "xYz0"));
    reflexivity.
Defined.

(** ** The command line *)

Lemma name_check_never_out_of_fuel st :
  name_uniqueness_check st ≠ OutOfFuel.
Proof.
  unfold name_uniqueness_check.
  destruct (v_guac_connection st) as [r|]; [|done].
  destruct (v_protocol st) as [p|].
  - destruct (name_loop_fresh (v_used_names st) (name (heap st !!! r)) p
                (name (heap st !!! r))) as (n & -> & _). done.
  - change (2 + ?n)%nat with (S (S n)). unfold name_loop.
    by case_bool_decide.
Qed.

Lemma loop_body_never_out_of_fuel st e : loop_body st e ≠ OutOfFuel.
Proof.
  unfold loop_body. destruct (find "ConnectionType" e) as [t|]; [|done].
  destruct (recognized_type (text t)) eqn:Hty.
  - rewrite branch_recognized by done.
    destruct (find (section_tag _) e) as [sec|]; cbn.
    + pose proof (build_bind (text t) e sec Hty) as Hb.
      destruct (port_of _ _) as [z| |] eqn:Hz.
      * destruct Hb as (d & -> & _). cbn.
        apply name_check_never_out_of_fuel.
      * by rewrite Hb.
      * unfold port_of in Hz. destruct (find _ sec) as [p|]; [|done].
        destruct (text p) as [x|]; [|done]. unfold int in Hz.
        by repeat case_match.
    + apply name_check_never_out_of_fuel.
  - by rewrite branch_unrecognized.
Qed.

(** The bound on the [while] loop is never reached: the function returns
    or raises. *)
Lemma convert_never_out_of_fuel fs path :
  convert_rdm_to_guac_json fs path ≠ OutOfFuel.
Proof.
  unfold convert_rdm_to_guac_json. destruct (fs path) as [| | |root]; try done.
  assert (∀ l st, for_each st l ≠ OutOfFuel) as Hl.
  { induction l as [|e l IH]; intros st; cbn; [done|].
    pose proof (loop_body_never_out_of_fuel st e).
    destruct (loop_body st e); cbn; auto. }
  unfold convert_elements.
  specialize (Hl (findall_descendants "Connection" root) initial).
  destruct (for_each _ _); cbn; [|done..]. by destruct (connections _).
Qed.

Lemma main_ends fs argv : main fs argv ≠ Diverges.
Proof.
  unfold main. case_bool_decide; [done|].
  pose proof (convert_never_out_of_fuel fs (default "" (argv !! 1%nat))).
  by destruct (convert_rdm_to_guac_json _ _).
Qed.

(** C2 (as amended).  When the input path does not exist, or the file is
    not well-formed XML, [convert_rdm_to_guac_json] returns an error text
    instead of raising, a different text in the two cases; the script
    prints it and ends with status 0.  A wrong number of arguments ends
    it with status 1. *)
Theorem error_reports fs script path :
  (fs path = Missing →
     convert_rdm_to_guac_json fs path
       = Ok ("Error: File not found: " +:+ path)
     ∧ main fs [script; path]
       = Exit ["Error: File not found: " +:+ path] 0)
  ∧ (∀ e, fs path = Malformed e →
       convert_rdm_to_guac_json fs path
         = Ok ("Error parsing XML file: " +:+ e)
       ∧ main fs [script; path] = Exit ["Error parsing XML file: " +:+ e] 0)
  ∧ (∀ e, "Error: File not found: " +:+ path
          ≠ "Error parsing XML file: " +:+ e)
  ∧ (∀ argv, length argv ≠ 2%nat →
       main fs argv
         = Exit ["Usage: python rdm_to_guac_json.py <path_to_rdm_xml_file>"]
             1).
Proof.
  split; [|split; [|split]].
  - intros H. unfold main, convert_rdm_to_guac_json. cbn. by rewrite H.
  - intros e H. unfold main, convert_rdm_to_guac_json. cbn. by rewrite H.
  - intros e. simpl. by intros [=].
  - intros argv H. unfold main. by rewrite bool_decide_eq_true_2.
Qed.

Lemma error_reports_witness :
  convert_rdm_to_guac_json (λ _, Missing) "absent.xml"
    = Ok "Error: File not found: absent.xml"
  ∧ main (λ _, Missing) ["rdm_to_guac_json.py"; "absent.xml"]
    = Exit ["Error: File not found: absent.xml"] 0.
Proof.
  apply (proj1 (error_reports (λ _, Missing) "rdm_to_guac_json.py"
                  "absent.xml")).
  reflexivity.
Defined.

(** C2 as stated fails: for a path that does not exist, and for a file
    that is not well-formed, the script ends with status 0. *)
Lemma error_reports_counterexample :
  main (λ _, Missing) ["rdm_to_guac_json.py"; "absent.xml"]
    = Exit ["Error: File not found: absent.xml"] 0
  ∧ main (λ _, Malformed "no element found: line 1, column 0")
      ["rdm_to_guac_json.py"; "empty.xml"]
    = Exit ["Error parsing XML file: no element found: line 1, column 0"] 0.
Proof. split; reflexivity. Qed.

(** ** The state keeps its references valid *)

Lemma check_stale st r p :
  v_guac_connection st = Some r → v_protocol st = Some p →
  ∃ n, (name_loop (2 + size (v_used_names st)) (v_used_names st)
          (name (heap st !!! r)) (Some p) (name (heap st !!! r)) 1 = Ok n)
       ∧ (n ∉ v_used_names st)
       ∧ name_uniqueness_check st =
           Ok {| heap := <[r := set_name n (heap st !!! r)]> (heap st);
                 v_connections := v_connections st ++ [r];
                 v_used_names := {[n]} ∪ v_used_names st;
                 v_guac_connection := Some r;
                 v_protocol := Some p |}.
Proof.
  intros Hr Hp.
  destruct (name_loop_fresh (v_used_names st) (name (heap st !!! r)) p
              (name (heap st !!! r))) as (n & Hn & Hfresh).
  exists n. split; [done|]. split; [done|].
  unfold name_uniqueness_check. by rewrite Hr, Hp, Hn.
Qed.

Lemma check_state_ok st st' :
  name_uniqueness_check st = Ok st' → state_ok st → state_ok st'.
Proof.
  unfold name_uniqueness_check.
  destruct (v_guac_connection st) as [r|] eqn:Hr; [|done].
  destruct (name_loop _ _ _ _ _ _) as [n| |]; cbn; [|done..].
  intros [= <-] [Hv Hg]. split.
  - intros r'. cbn. rewrite length_insert, elem_of_app, list_elem_of_singleton.
    intros [?| ->]; [by apply Hv|by apply Hg].
  - intros r'. cbn. rewrite length_insert. intros [= <-]. by apply Hg.
Qed.

Lemma appended_state_ok st d n label :
  state_ok st → state_ok (appended st d n label).
Proof.
  intros [Hv Hg]. split; [by apply valid_refs_appended|].
  intros r. cbn. rewrite length_app. cbn. intros [= <-]. lia.
Qed.

Lemma loop_body_state_ok st e st' :
  loop_body st e = Ok st' → state_ok st → state_ok st'.
Proof.
  destruct (recognized e) eqn:Hrec.
  - destruct (type_section e) as [sec|] eqn:Hsec.
    + intros (d & n & _ & _ & _ & ->)%(loop_body_built _ _ sec); [|done..].
      apply appended_state_ok.
    + rewrite loop_body_no_section by done. apply check_state_ok.
  - rewrite loop_body_skip by done. by intros [= <-].
Qed.

Lemma for_each_state_ok l : ∀ st st',
  for_each st l = Ok st' → state_ok st → state_ok st'.
Proof.
  induction l as [|e l IH]; intros st st'; cbn; [by intros [= <-]|].
  destruct (loop_body st e) as [st1| |] eqn:He; cbn; [|done..].
  intros Hl Hst. eapply IH; [done|]. by eapply loop_body_state_ok.
Qed.

Lemma initial_state_ok : state_ok initial.
Proof. split; [by intros r ?%elem_of_nil|done]. Qed.

Lemma for_each_recognized root st :
  for_each st (findall_descendants "Connection" root)
  = for_each st (recognized_elements root).
Proof. unfold recognized_elements. by rewrite for_each_filter. Qed.

(** ** A port element without text, on whole documents *)

Lemma for_each_app l1 l2 st :
  for_each st (l1 ++ l2) = st' ← for_each st l1; for_each st' l2.
Proof.
  revert st. induction l1 as [|e l1 IH]; intros st; cbn; [done|].
  destruct (loop_body st e) as [st1| |]; cbn; [apply IH|done..].
Qed.

(** A loop that returns has returned from the iteration on each element. *)
Lemma for_each_returns l : ∀ st st' e,
  for_each st l = Ok st' → e ∈ l → ∃ st0 st1, loop_body st0 e = Ok st1.
Proof.
  induction l as [|e' l IH]; intros st st' e; cbn.
  - by intros _ ?%elem_of_nil.
  - destruct (loop_body st e') as [st1| |] eqn:He; cbn; [|done..].
    intros Hl [->|He']%elem_of_cons; [by exists st, st1|by eapply IH].
Qed.

Lemma for_each_ends l : ∀ st, for_each st l ≠ OutOfFuel.
Proof.
  induction l as [|e l IH]; intros st; cbn; [done|].
  pose proof (loop_body_never_out_of_fuel st e).
  destruct (loop_body st e); cbn; auto.
Qed.

Lemma loop_body_empty_port st e p :
  recognized e = true → port_element e = Some p → text p = None →
  loop_body st e = Raise AttributeError.
Proof.
  intros Hrec Hp Hx. unfold port_element in Hp.
  destruct (type_section e) as [sec|] eqn:Hsec; [|done]. cbn in Hp.
  rewrite (loop_body_section _ _ sec) by done.
  pose proof (build_bind (connection_type e) e sec
                (recognized_connection_type e Hrec)) as Hb.
  rewrite Hp, port_of_no_text in Hb by done. by rewrite Hb.
Qed.

Lemma raised_by_script fs script path x :
  convert_rdm_to_guac_json fs path = Raise x →
  main fs [script; path] = Exit [] 1.
Proof. intros H. unfold main. cbn. by rewrite H. Qed.

(** C10.  A well-formed document exists on which the document converter
    ends in an uncaught exception instead of taking the default port: when
    a recognized element has a port element without text and the
    recognized elements before it are complete, [.isdigit()] is called on
    [None], [convert_rdm_to_guac_json] ends in [AttributeError], which
    nothing catches, and the script prints nothing and ends with status 1;
    whatever comes before such an element, the function raises and returns
    nothing; the iteration on such an element raises in every state; and
    the port is read without failure only if the port element is absent or
    carries text. *)
Theorem empty_port_raises :
  (∃ root fs path,
     fs path = Document root
     ∧ convert_elements root = Raise AttributeError
     ∧ convert_rdm_to_guac_json fs path = Raise AttributeError
     ∧ main fs ["rdm_to_guac_json.py"; path] = Exit [] 1)
  ∧ (∀ root pre e post p fs script path,
       recognized_elements root = pre ++ e :: post →
       (∀ e', e' ∈ pre → complete e' = true) →
       port_element e = Some p → text p = None →
       fs path = Document root →
       convert_elements root = Raise AttributeError
       ∧ convert_rdm_to_guac_json fs path = Raise AttributeError
       ∧ main fs [script; path] = Exit [] 1)
  ∧ (∀ root e p fs script path,
       e ∈ recognized_elements root →
       port_element e = Some p → text p = None →
       fs path = Document root →
       ∃ x, convert_rdm_to_guac_json fs path = Raise x
            ∧ main fs [script; path] = Exit [] 1)
  ∧ (∀ st e p,
       recognized e = true → port_element e = Some p → text p = None →
       loop_body st e = Raise AttributeError)
  ∧ (∀ port_elem dflt z,
       port_of port_elem dflt = Ok z →
       port_elem = None ∨ ∃ p t, port_elem = Some p ∧ text p = Some t).
Proof.
  assert (∀ root pre e post p fs script path,
            recognized_elements root = pre ++ e :: post →
            (∀ e', e' ∈ pre → complete e' = true) →
            port_element e = Some p → text p = None →
            fs path = Document root →
            convert_elements root = Raise AttributeError
            ∧ convert_rdm_to_guac_json fs path = Raise AttributeError
            ∧ main fs [script; path] = Exit [] 1) as Hfirst.
  { intros root pre e post p fs script path Hroot Hpre Hp Hx Hfs.
    assert (recognized e = true) as Hrec.
    { apply (recognized_elements_recognized root). rewrite Hroot.
      apply elem_of_app. right. by left. }
    assert (convert_elements root = Raise AttributeError) as Hc.
    { unfold convert_elements. rewrite for_each_recognized, Hroot, for_each_app.
      destruct (for_each_complete pre initial) as [st Hst].
      { intros e' He' _. by apply Hpre. }
      rewrite Hst. cbn. by rewrite (loop_body_empty_port st e p). }
    assert (convert_rdm_to_guac_json fs path = Raise AttributeError) as Hj.
    { unfold convert_rdm_to_guac_json. by rewrite Hfs, Hc. }
    split; [done|]. split; [done|]. by eapply raised_by_script. }
  split; [|split; [done|split; [|split]]].
  - exists Samples.document_with_empty_port,
      (λ _, Document Samples.document_with_empty_port), "export.rdm".
    split; [done|].
    apply (Hfirst _ [] Samples.vnc_empty_port [] (Samples.empty "Port"));
      [reflexivity|by intros e' ?%elem_of_nil|reflexivity..].
  - intros root e p fs script path He Hp Hx Hfs.
    assert (∃ x, convert_rdm_to_guac_json fs path = Raise x) as [x Hj].
    { pose proof (convert_never_out_of_fuel fs path) as Hfuel.
      destruct (convert_rdm_to_guac_json fs path) as [s|x|] eqn:Hj;
        [|by exists x|done].
      exfalso. unfold convert_rdm_to_guac_json in Hj. rewrite Hfs in Hj.
      unfold convert_elements in Hj.
      destruct (for_each _ _) as [st| |] eqn:Hst; cbn in Hj; [|done..].
      rewrite for_each_recognized in Hst.
      destruct (for_each_returns _ _ _ e Hst He) as (st0 & st1 & Hb).
      rewrite (loop_body_empty_port st0 e p) in Hb; [done| |done..].
      by apply (recognized_elements_recognized root). }
    exists x. split; [done|]. by eapply raised_by_script.
  - apply loop_body_empty_port.
  - intros [p|] dflt z; [|by left]. unfold port_of.
    destruct (text p) as [t|] eqn:Ht; [|done]. right. by exists p, t.
Qed.

Lemma empty_port_raises_witness :
  convert_elements Samples.document_with_empty_port = Raise AttributeError
  ∧ convert_rdm_to_guac_json (λ _, Document Samples.document_with_empty_port)
      "export.rdm" = Raise AttributeError
  ∧ main (λ _, Document Samples.document_with_empty_port)
      ["rdm_to_guac_json.py"; "export.rdm"] = Exit [] 1.
Proof.
  apply (proj1 (proj2 empty_port_raises) Samples.document_with_empty_port
           [] Samples.vnc_empty_port [] (Samples.empty "Port"));
    [reflexivity|by intros e' ?%elem_of_nil|reflexivity..].
Defined.

(** ** Elements without their section *)

(** C1, with the path where it fails.  Whenever the converter returns a
    list, it holds exactly as many records as the document has
    [Connection] elements of a recognized type, and it returns one whenever
    every recognized element has the section of its type and a readable
    port: the other elements are skipped without error and add none.  But
    when the first recognized element of a document lacks its section, the
    iteration reaches the name check with [guac_connection] never bound:
    the function ends in [UnboundLocalError] and returns no list at all,
    however many recognized elements the document has. *)
Theorem record_count :
  (∀ root l,
     convert_elements root = Ok l →
     length l = length (recognized_elements root))
  ∧ (∀ root,
       (∀ e, e ∈ findall_descendants "Connection" root →
             recognized e = true → complete e = true) →
       ∃ l, convert_elements root = Ok l
            ∧ length l = length (recognized_elements root))
  ∧ (∀ root e rest fs script path,
       recognized_elements root = e :: rest → type_section e = None →
       fs path = Document root →
       convert_elements root = Raise UnboundLocalError
       ∧ convert_rdm_to_guac_json fs path = Raise UnboundLocalError
       ∧ main fs [script; path] = Exit [] 1
       ∧ ¬ ∃ l, convert_elements root = Ok l
                ∧ length l = length (recognized_elements root)).
Proof.
  split; [apply returned_count|split].
  - intros root Hc.
    destruct (for_each_complete _ initial Hc) as [st Hst].
    exists (connections st).
    assert (convert_elements root = Ok (connections st)) as Hl.
    { unfold convert_elements. by rewrite Hst. }
    split; [done|]. by apply returned_count.
  - intros root e rest fs script path Hroot Hs Hfs.
    assert (recognized e = true) as Hr.
    { apply (recognized_elements_recognized root). rewrite Hroot. by left. }
    assert (convert_elements root = Raise UnboundLocalError) as Hc.
    { unfold convert_elements. rewrite for_each_recognized, Hroot.
      cbn [for_each]. by rewrite loop_body_no_section. }
    assert (convert_rdm_to_guac_json fs path = Raise UnboundLocalError) as Hj.
    { unfold convert_rdm_to_guac_json. by rewrite Hfs, Hc. }
    split; [done|]. split; [done|].
    split; [by eapply raised_by_script|].
    intros (l & Hl & _). congruence.
Qed.

Lemma record_count_witness :
  length (recognized_elements Samples.ssh_without_terminal) = 1%nat
  ∧ convert_elements Samples.ssh_without_terminal = Raise UnboundLocalError
  ∧ convert_rdm_to_guac_json (λ _, Document Samples.ssh_without_terminal)
      "export.rdm" = Raise UnboundLocalError
  ∧ main (λ _, Document Samples.ssh_without_terminal)
      ["rdm_to_guac_json.py"; "export.rdm"] = Exit [] 1
  ∧ ¬ ∃ l, convert_elements Samples.ssh_without_terminal = Ok l
           ∧ length l = length (recognized_elements
                                  Samples.ssh_without_terminal).
Proof.
  split; [reflexivity|].
  apply (proj2 (proj2 record_count) Samples.ssh_without_terminal
           (Samples.node "Connection"
              [Samples.leaf "ConnectionType" "SSHShell";
               Samples.leaf "Name" "Server1"]) []); reflexivity.
Defined.

(** The name check appends the reference it finds in [guac_connection] and
    changes the name of that object only. *)
Lemma check_refs st st' :
  name_uniqueness_check st = Ok st' →
  ∃ r, v_guac_connection st = Some r
       ∧ v_guac_connection st' = Some r
       ∧ v_connections st' = v_connections st ++ [r]
       ∧ length (heap st') = length (heap st)
       ∧ ∀ i, group (heap st' !!! i) = group (heap st !!! i).
Proof.
  unfold name_uniqueness_check.
  destruct (v_guac_connection st) as [r|] eqn:Hr; [|done].
  destruct (name_loop _ _ _ _ _ _) as [n| |]; cbn; [|done..].
  intros [= <-]. exists r. cbn.
  split; [done|]. split; [done|]. split; [done|].
  split; [by rewrite length_insert|].
  intros i. rewrite list_lookup_total_insert.
  by destruct (decide _) as [[-> _]|_].
Qed.

(** An iteration on a recognized element appends one reference: to a new
    object with the group of the element when the element has its section,
    and otherwise the reference appended last; the groups of the objects
    already in the store stay as they are. *)
Lemma loop_body_refs st e st' :
  recognized e = true → loop_body st e = Ok st' →
  state_ok st → last (v_connections st) = v_guac_connection st →
  ∃ r, v_connections st' = v_connections st ++ [r]
       ∧ v_guac_connection st' = Some r
       ∧ (r < length (heap st'))%nat
       ∧ (length (heap st) ≤ length (heap st'))%nat
       ∧ (∀ i, (i < length (heap st))%nat →
               group (heap st' !!! i) = group (heap st !!! i))
       ∧ (is_Some (type_section e) →
          group (heap st' !!! r)
          = guac_group_path (text_or_empty (find "Group" e)))
       ∧ (type_section e = None → last (v_connections st) = Some r).
Proof.
  intros Hrec He [Hv Hg] Hlast.
  destruct (type_section e) as [sec|] eqn:Hsec.
  - destruct (loop_body_built _ _ _ _ Hrec Hsec He)
      as (d & n & Hd & _ & _ & ->).
    exists (length (heap st)). unfold appended. cbn.
    rewrite length_app. cbn.
    split; [done|]. split; [done|]. split; [lia|]. split; [lia|].
    split; [|split; [|done]].
    + intros i Hi. by rewrite lookup_total_app_l.
    + intros _. rewrite list_lookup_total_middle by done. cbn.
      eapply built_group; [|done]. by apply recognized_connection_type.
  - rewrite loop_body_no_section in He by done.
    apply check_refs in He as (r & Hr & Hr' & Hc & Hlen & Hgr).
    exists r. split; [done|]. split; [done|]. rewrite Hlen.
    split; [by apply Hg|]. split; [done|].
    split; [by intros i _|]. split; [by intros [? ?]|].
    intros _. by rewrite Hlast.
Qed.

Lemma for_each_refs l : ∀ st st',
  state_ok st → last (v_connections st) = v_guac_connection st →
  for_each st l = Ok st' →
  (length (heap st) ≤ length (heap st'))%nat
  ∧ (∀ i, (i < length (heap st))%nat →
          group (heap st' !!! i) = group (heap st !!! i))
  ∧ ∃ rs, v_connections st' = v_connections st ++ rs
          ∧ Forall2
              (λ e r, is_Some (type_section e) →
                      group (heap st' !!! r)
                      = guac_group_path (text_or_empty (find "Group" e)))
              (List.filter recognized l) rs
          ∧ stale_refs (last (v_connections st))
              (List.filter recognized l) rs.
Proof.
  induction l as [|e l IH]; intros st st' Hok Hlast; cbn.
  - intros [= <-]. split; [done|]. split; [done|].
    exists []. rewrite app_nil_r. split; [done|]. split; [constructor|done].
  - destruct (loop_body st e) as [st1| |] eqn:He; cbn; [|done..].
    intros Hl. destruct (recognized e) eqn:Hrec.
    + destruct (loop_body_refs _ _ _ Hrec He Hok Hlast)
        as (r & Hc & Hg & Hr & Hlen & Hgr & Hsec & Hstale).
      assert (last (v_connections st1) = v_guac_connection st1) as Hlast1.
      { by rewrite Hc, last_snoc, Hg. }
      destruct (IH st1 st' (loop_body_state_ok _ _ _ He Hok) Hlast1 Hl)
        as (Hlen' & Hgr' & rs & Hrs & Hf & Hst).
      split; [lia|]. split.
      { intros i Hi. rewrite Hgr' by lia. by apply Hgr. }
      exists (r :: rs). split.
      { by rewrite Hrs, Hc, <- app_assoc. }
      split.
      { constructor; [|done]. intros Hs. rewrite Hgr' by done.
        by apply Hsec. }
      cbn. split; [done|]. by rewrite Hc, last_snoc in Hst.
    + rewrite loop_body_skip in He by done. injection He as <-.
      by apply IH.
Qed.

Lemma stale_refs_lookup es : ∀ prev rs k e,
  stale_refs prev es rs → es !! k = Some e → type_section e = None →
  ∃ r, rs !! k = Some r
       ∧ match k with
         | O => prev = Some r
         | S j => rs !! j = Some r
         end.
Proof.
  induction es as [|e' es IH]; intros prev [|r' rs] k e; cbn; try done.
  intros [Hh Ht] Hk Hs. destruct k as [|k]; cbn in *.
  - injection Hk as ->. exists r'. split; [done|]. by apply Hh.
  - destruct (IH _ _ _ _ Ht Hk Hs) as (r & Hr & Hm).
    exists r. split; [done|]. destruct k as [|j]; [by rewrite <- Hm|done].
Qed.

(** C9, with the path where it fails.  Whenever the converter returns a
    list, its records pair off in order with the recognized connection
    elements.  For each element that has the section of its type the
    record obeys the rule: if the element declares a group (a [Group]
    child with a non-empty text [p]), the record's group is ["ROOT/"]
    followed by [p] with every backslash turned into a slash; if it
    declares none (no [Group] child, or one without text), the record has
    no group and its JSON object no ["group"] key.  But for an element that
    lacks its section the iteration appends once more the object appended
    just before: the record in its place is the record in the place before
    it, with the group of an earlier element and not its own. *)
Theorem group_path_rule root l :
  convert_elements root = Ok l →
  Forall2
    (λ e d,
       is_Some (type_section e) →
       (∀ p, declares_group e p →
             group d = Some ("ROOT/" +:+ replace (ascii_of_N 92)
                                           (ascii_of_N 47) p)
             ∧ "group" ∈ json_keys (to_json d))
       ∧ ((∀ p, ¬ declares_group e p) →
          group d = None ∧ "group" ∉ json_keys (to_json d)))
    (recognized_elements root) l
  ∧ ∀ k e, recognized_elements root !! k = Some e → type_section e = None →
           ∃ j d, k = S j ∧ l !! j = Some d ∧ l !! k = Some d.
Proof.
  unfold convert_elements, recognized_elements.
  destruct (for_each _ _) as [st| |] eqn:Hst; cbn; [|done..].
  intros [= <-].
  apply for_each_refs in Hst as (_ & _ & rs & Hrs & Hf & Hs);
    [|apply initial_state_ok|done].
  cbn in Hrs, Hs. unfold connections. rewrite Hrs. split.
  - apply Forall2_fmap_r. eapply Forall2_impl; [exact Hf|].
    intros e r Hr Hsec. apply group_rule_of_path. by apply Hr.
  - intros k e Hk Hsec.
    destruct (stale_refs_lookup _ _ _ _ _ Hs Hk Hsec) as (r & Hr & Hm).
    destruct k as [|j]; [done|]. exists j, (heap st !!! r).
    split; [done|]. by rewrite !list_lookup_fmap, Hr, Hm.
Qed.

Lemma group_path_rule_witness :
  (∃ l, convert_elements Samples.ssh_then_no_section = Ok l
        ∧ recognized_elements Samples.ssh_then_no_section !! 1%nat
          = Some Samples.vnc_without_section
        ∧ declares_group Samples.vnc_without_section "Lab"
        ∧ group <$> l = [Some "ROOT/A/B/C"; Some "ROOT/A/B/C"]
        ∧ ∃ d, l !! 0%nat = Some d ∧ l !! 1%nat = Some d)
  ∧ ∃ l, convert_elements Samples.ssh_gap_rdp = Ok l
         ∧ group <$> l = [Some "ROOT/A/B/C"; Some "ROOT/A/B/C"; None]
         ∧ Forall2
             (λ e d,
                is_Some (type_section e) →
                (∀ p, declares_group e p →
                      group d = Some ("ROOT/" +:+ replace (ascii_of_N 92)
                                                    (ascii_of_N 47) p)
                      ∧ "group" ∈ json_keys (to_json d))
                ∧ ((∀ p, ¬ declares_group e p) →
                   group d = None ∧ "group" ∉ json_keys (to_json d)))
             (recognized_elements Samples.ssh_gap_rdp) l.
Proof.
  split.
  - destruct (convert_elements Samples.ssh_then_no_section) as [l| |] eqn:Hl;
      [|by vm_compute in Hl..].
    exists l. split; [done|]. split; [reflexivity|]. split.
    { exists (Samples.leaf "Group" "Lab"). by repeat split. }
    split.
    { vm_compute in Hl. by injection Hl as <-. }
    destruct (proj2 (group_path_rule Samples.ssh_then_no_section l Hl)
                1%nat Samples.vnc_without_section)
      as (j & d & Hj & H0 & H1); [reflexivity..|].
    injection Hj as <-. by exists d.
  - destruct (convert_elements Samples.ssh_gap_rdp) as [l| |] eqn:Hl;
      [|by vm_compute in Hl..].
    exists l. split; [done|]. split.
    { vm_compute in Hl. by injection Hl as <-. }
    apply (proj1 (group_path_rule Samples.ssh_gap_rdp l Hl)).
Defined.

End RdmProofs.

(** * Properties of the database exporter *)
Module ExportProofs.
Import Py GuacamoleExport.

(** ** Dictionaries *)
Section dict.
Context {K V : Type} `{!EqDecision K}.
Implicit Types (k : K) (v : V) (d : list (K * V)).

Lemma getitem_setitem_eq k v d : getitem k (setitem k v d) = Some v.
Proof.
  induction d as [|[k' v'] d IH]; cbn; [by rewrite decide_True|].
  case_decide as Hk; cbn; [by rewrite decide_True|].
  by rewrite decide_False.
Qed.

Lemma getitem_setitem_ne k k' v d :
  k ≠ k' → getitem k' (setitem k v d) = getitem k' d.
Proof.
  intros Hne. induction d as [|[k1 v1] d IH]; cbn.
  - by rewrite decide_False.
  - case_decide as Hk; cbn.
    + subst k1. by rewrite !decide_False.
    + by rewrite IH.
Qed.

Lemma getitem_update_eq k f d :
  getitem k (update k f d) = f <$> getitem k d.
Proof.
  induction d as [|[k1 v1] d IH]; cbn; [done|].
  case_decide as Hk; cbn.
  - by rewrite decide_True.
  - by rewrite decide_False.
Qed.

Lemma getitem_update_ne k k' f d :
  k ≠ k' → getitem k' (update k f d) = getitem k' d.
Proof.
  intros Hne. induction d as [|[k1 v1] d IH]; cbn; [done|].
  case_decide as Hk; cbn.
  - subst k1. by rewrite !decide_False.
  - by rewrite IH.
Qed.

Lemma keys_update k f d : keys (update k f d) = keys d.
Proof.
  unfold keys. induction d as [|[k1 v1] d IH]; cbn; [done|].
  case_decide; cbn; [done|]. by rewrite IH.
Qed.

Lemma keys_setitem_new k v d :
  k ∉ keys d → keys (setitem k v d) = keys d ++ [k].
Proof.
  unfold keys. induction d as [|[k1 v1] d IH]; cbn; [done|].
  rewrite not_elem_of_cons. intros [Hne Hk].
  rewrite decide_False by done. cbn. by rewrite IH.
Qed.

Lemma getitem_None k d : getitem k d = None ↔ k ∉ keys d.
Proof.
  unfold keys. induction d as [|[k1 v1] d IH]; cbn.
  - split; [intros _; apply not_elem_of_nil|done].
  - rewrite not_elem_of_cons. case_decide as Hk.
    + split; [done|]. intros [Hne _]. by destruct Hne.
    + rewrite IH. split; [by split|tauto].
Qed.

Lemma getitem_Some_values k v d : getitem k d = Some v → v ∈ values d.
Proof.
  unfold values. induction d as [|[k1 v1] d IH]; cbn; [done|].
  case_decide.
  - intros [= ->]. by left.
  - intros H'. right. by apply IH.
Qed.

Lemma values_getitem v d :
  v ∈ values d → NoDup (keys d) → ∃ k, getitem k d = Some v.
Proof.
  unfold values, keys. induction d as [|[k1 v1] d IH]; cbn.
  - by intros ?%elem_of_nil.
  - rewrite elem_of_cons, NoDup_cons. intros [->|Hv] [Hk Hnd].
    + exists k1. by rewrite decide_True.
    + destruct (IH Hv Hnd) as [k Hg]. exists k.
      rewrite decide_False; [done|]. intros ->.
      apply (proj2 (getitem_None k d)) in Hk. congruence.
Qed.

Lemma getitem_keys k v d : getitem k d = Some v → k ∈ keys d.
Proof.
  intros Hg. destruct (decide (k ∈ keys d)) as [|Hn]; [done|].
  apply getitem_None in Hn. congruence.
Qed.
End dict.

(** ** One row *)

Lemma loop_body_getitem m r i :
  getitem i (loop_body m r) =
    if decide (connection_id r = i)
    then Some (add_row (default (new_connection r) (getitem i m)) r)
    else getitem i m.
Proof.
  destruct r as [[[[[conn_id nm] parent_id] group_name] pn] pv].
  unfold loop_body, add_row, new_connection. cbn.
  case_bool_decide as Hnew.
  - apply (proj2 (getitem_None _ _)) in Hnew.
    destruct pn as [k|]; case_decide as Hi; subst.
    + by rewrite getitem_update_eq, getitem_setitem_eq, Hnew.
    + by rewrite getitem_update_ne, getitem_setitem_ne.
    + by rewrite getitem_setitem_eq, Hnew.
    + by rewrite getitem_setitem_ne.
  - destruct pn as [k|]; case_decide as Hi; subst.
    + rewrite getitem_update_eq. destruct (getitem i m) eqn:Hg; [done|].
      by apply getitem_None in Hg.
    + by rewrite getitem_update_ne.
    + destruct (getitem i m) eqn:Hg; [done|]. by apply getitem_None in Hg.
    + done.
Qed.

Lemma loop_body_keys m r :
  keys (loop_body m r) =
    if decide (connection_id r ∈ keys m) then keys m
    else keys m ++ [connection_id r].
Proof.
  destruct r as [[[[[conn_id nm] parent_id] group_name] pn] pv].
  unfold loop_body. cbn. case_bool_decide as Hnew.
  - rewrite decide_False by done.
    destruct pn; rewrite ?keys_update; by apply keys_setitem_new.
  - rewrite decide_True by done.
    destruct pn; by rewrite ?keys_update.
Qed.

(** ** All rows *)

Lemma record_of_Some c rs : record_of (Some c) rs = Some (foldl add_row c rs).
Proof.
  revert c. induction rs as [|r rs IH]; intros c; [done|]. cbn. apply IH.
Qed.

Lemma foldl_getitem rows : ∀ m i,
  getitem i (foldl loop_body m rows) = record_of (getitem i m) (rows_of i rows).
Proof.
  induction rows as [|r rows IH]; intros m i; [done|].
  cbn [foldl]. rewrite IH, loop_body_getitem. unfold rows_of.
  rewrite filter_cons. by case_decide.
Qed.

(** The record of connection [i]: created by its first row, then fed its
    rows in order. *)
Lemma build_map_getitem rows i :
  getitem i (build_map rows) =
    match rows_of i rows with
    | [] => None
    | r :: rs => Some (foldl add_row (new_connection r) (r :: rs))
    end.
Proof.
  unfold build_map. rewrite foldl_getitem. cbn [getitem].
  destruct (rows_of i rows) as [|r rs]; [done|].
  cbn. by rewrite record_of_Some.
Qed.

Lemma foldl_keys rows : ∀ m,
  NoDup (keys m) →
  NoDup (keys (foldl loop_body m rows))
  ∧ ∀ i, i ∈ keys (foldl loop_body m rows)
         ↔ i ∈ keys m ∨ i ∈ connection_id <$> rows.
Proof.
  induction rows as [|r rows IH]; intros m Hm; cbn [foldl].
  - split; [done|]. intros i. rewrite fmap_nil, elem_of_nil. tauto.
  - destruct (IH (loop_body m r)) as [Hnd Hin].
    { rewrite loop_body_keys. case_decide; [done|].
      apply NoDup_app. split; [done|]. split; [|apply NoDup_singleton].
      intros x Hx ->%list_elem_of_singleton. done. }
    split; [done|]. intros i. rewrite Hin, loop_body_keys, fmap_cons.
    rewrite elem_of_cons. case_decide as Hr.
    + split; [tauto|]. intros [?|[->|?]]; tauto.
    + rewrite elem_of_app, list_elem_of_singleton. tauto.
Qed.

Lemma build_map_keys rows :
  NoDup (keys (build_map rows))
  ∧ ∀ i, i ∈ keys (build_map rows) ↔ i ∈ connection_id <$> rows.
Proof.
  destruct (foldl_keys rows []) as [Hnd Hin]; [constructor|].
  split; [done|]. intros i. unfold build_map. rewrite Hin.
  split; [|by right]. intros [Hi|Hi]; [|done]. by apply elem_of_nil in Hi.
Qed.

(** ** What the rows of a connection leave in its record *)

Lemma add_rows_fields rs : ∀ c,
  name (foldl add_row c rs) = name c
  ∧ protocol (foldl add_row c rs) = protocol c
  ∧ group (foldl add_row c rs) = group c.
Proof.
  induction rs as [|r rs IH]; intros c; [done|]. cbn [foldl].
  destruct (IH (add_row c r)) as (-> & -> & ->).
  unfold add_row. by destruct (parameter_name r).
Qed.

Lemma add_rows_keys k rs : ∀ c,
  k ∈ keys (parameters (foldl add_row c rs)) →
  k ∈ keys (parameters c) ∨ ∃ r, r ∈ rs ∧ parameter_name r = Some k.
Proof.
  induction rs as [|r rs IH]; intros c; cbn [foldl]; [by left|].
  intros [Hk|(r' & Hr' & Hn)]%IH.
  - unfold add_row in Hk. destruct (parameter_name r) as [k'|] eqn:Hn.
    + cbn in Hk. apply RdmProofs.elem_of_keys_setitem in Hk as [->|Hk].
      * right. exists r. split; [by left|done].
      * by left.
    + by left.
  - right. exists r'. split; [by right|done].
Qed.

Lemma add_rows_getitem k v rs : ∀ c,
  (∀ r, r ∈ rs → parameter_name r = Some k → parameter_value r = v) →
  (∃ r, r ∈ rs ∧ parameter_name r = Some k)
  ∨ getitem k (parameters c) = Some v →
  getitem k (parameters (foldl add_row c rs)) = Some v.
Proof.
  induction rs as [|r rs IH]; intros c Hv Hk; cbn [foldl].
  - destruct Hk as [(r & Hr%elem_of_nil & _)|Hk]; done.
  - apply IH; [intros r' Hr'; apply Hv; by right|].
    unfold add_row.
    destruct (parameter_name r) as [k'|] eqn:Hn; cbn.
    + destruct (decide (k' = k)) as [->|Hne].
      * right. rewrite getitem_setitem_eq. f_equal. apply Hv; [by left|done].
      * rewrite getitem_setitem_ne by done.
        destruct Hk as [(r' & [->|Hr']%elem_of_cons & Hn')|Hk];
          [congruence|left; by exists r'|by right].
    + destruct Hk as [(r' & [->|Hr']%elem_of_cons & Hn')|Hk];
        [congruence|left; by exists r'|by right].
Qed.

Lemma add_rows_getitem_other k rs : ∀ c,
  (∀ r, r ∈ rs → parameter_name r ≠ Some k) →
  getitem k (parameters (foldl add_row c rs)) = getitem k (parameters c).
Proof.
  induction rs as [|r rs IH]; intros c Hrs; [done|]. cbn [foldl].
  rewrite IH by (intros r' Hr'; apply Hrs; by right).
  unfold add_row. destruct (parameter_name r) as [k'|] eqn:Hn; [|done].
  cbn. apply getitem_setitem_ne. intros ->. by apply (Hrs r); [left|].
Qed.

Lemma add_rows_null rs : ∀ c,
  (∀ r, r ∈ rs → parameter_name r = None) → foldl add_row c rs = c.
Proof.
  induction rs as [|r rs IH]; intros c Hn; [done|]. cbn [foldl].
  unfold add_row at 2. rewrite (Hn r) by by left.
  apply IH. intros r' Hr'. apply Hn. by right.
Qed.

Lemma elem_of_rows_of i r rows :
  r ∈ rows_of i rows ↔ r ∈ rows ∧ connection_id r = i.
Proof. unfold rows_of. rewrite list_elem_of_filter. tauto. Qed.

Lemma rows_of_first pre r post :
  (∀ r', r' ∈ pre → connection_id r' ≠ connection_id r) →
  rows_of (connection_id r) (pre ++ r :: post)
  = r :: rows_of (connection_id r) post.
Proof.
  intros Hpre. unfold rows_of. rewrite filter_app, filter_cons_True by done.
  induction pre as [|r' pre IH]; [done|].
  rewrite filter_cons_False by (apply Hpre; by left).
  apply IH. intros r'' Hr''. apply Hpre. by right.
Qed.

(** ** The claims *)

(** C4 (as amended).  The first row of each connection id creates the
    record of that connection: its name is the row's [connection_name],
    its protocol is the row's [protocol] column, the fourth of the query
    (the tuple is unpacked into a variable called [group_name]), and its
    group is the row's [group_path], the third column (unpacked into
    [parent_id]). *)
Theorem first_row_creates_record pre r post :
  (∀ r', r' ∈ pre → connection_id r' ≠ connection_id r) →
  ∃ c, getitem (connection_id r) (build_map (pre ++ r :: post)) = Some c
       ∧ c ∈ build_connection_dict (pre ++ r :: post)
       ∧ name c = connection_name r
       ∧ protocol c = protocol_column r
       ∧ group c = group_path r.
Proof.
  intros Hpre. eexists. split.
  - by rewrite build_map_getitem, rows_of_first.
  - split.
    + eapply getitem_Some_values.
      by rewrite build_map_getitem, rows_of_first.
    + apply add_rows_fields.
Qed.

Lemma first_row_creates_record_witness :
  ∃ c, getitem 7 (build_map (Samples.rows_of_5
                               ++ Samples.row_without_parameters :: []))
         = Some c
       ∧ c ∈ build_connection_dict
               (Samples.rows_of_5 ++ Samples.row_without_parameters :: [])
       ∧ name c = Some "web"
       ∧ protocol c = Some "ssh"
       ∧ group c = Some "ROOT/dmz".
Proof.
  apply (first_row_creates_record Samples.rows_of_5
           Samples.row_without_parameters []).
  intros r' Hr'. vm_compute in Hr'.
  repeat (apply elem_of_cons in Hr' as [->|Hr']; [by vm_compute|]).
  by apply elem_of_nil in Hr'.
Defined.

(** C4 as stated fails: the protocol of the record is not taken from the
    group path, the third column. *)
Lemma first_row_creates_record_counterexample :
  build_connection_dict [Samples.row_without_parameters]
    = [{| name := Some "web"; protocol := Some "ssh";
          group := Some "ROOT/dmz"; parameters := [] |}]
  ∧ ¬ ∀ c, c ∈ build_connection_dict [Samples.row_without_parameters] →
           protocol c = group_path Samples.row_without_parameters.
Proof.
  split; [reflexivity|]. intros H.
  specialize (H _ (list_elem_of_here _ _)). discriminate H.
Qed.

(** C7.  A row whose parameter name is null leaves the parameters of
    every record as they were, and the record it creates has none; so
    every key of a record of the output comes from a row of that
    connection with this very parameter name, and a connection all of
    whose rows have a null parameter name gets a record with an empty
    parameter map. *)
Theorem null_parameter_adds_nothing :
  (∀ m r i c,
     parameter_name r = None → getitem i m = Some c →
     getitem i (loop_body m r) = Some c)
  ∧ (∀ m r,
       parameter_name r = None → getitem (connection_id r) m = None →
       ∃ c, getitem (connection_id r) (loop_body m r) = Some c
            ∧ parameters c = [])
  ∧ (∀ rows c k,
       c ∈ build_connection_dict rows → k ∈ keys (parameters c) →
       ∃ i r, getitem i (build_map rows) = Some c
              ∧ r ∈ rows ∧ connection_id r = i
              ∧ parameter_name r = Some k)
  ∧ (∀ rows r,
       r ∈ rows →
       (∀ r', r' ∈ rows → connection_id r' = connection_id r →
              parameter_name r' = None) →
       ∃ c, getitem (connection_id r) (build_map rows) = Some c
            ∧ c ∈ build_connection_dict rows
            ∧ parameters c = []).
Proof.
  split; [|split; [|split]].
  - intros m r i c Hn Hc. rewrite loop_body_getitem, Hc.
    case_decide; [|done]. unfold add_row. by rewrite Hn.
  - intros m r Hn Hc. rewrite loop_body_getitem, Hc, decide_True by done.
    eexists. split; [done|]. unfold add_row. by rewrite Hn.
  - intros rows c k Hc Hk.
    destruct (values_getitem c (build_map rows) Hc) as [i Hi];
      [apply build_map_keys|].
    exists i. pose proof Hi as Hi'. rewrite build_map_getitem in Hi'.
    destruct (rows_of i rows) as [|r0 rs] eqn:Hrows; [done|].
    injection Hi' as <-.
    change (k ∈ keys (parameters
                        (foldl add_row (new_connection r0) (r0 :: rs))))
      in Hk.
    apply add_rows_keys in Hk as [Hk|(r & Hr & Hn)];
      [by apply elem_of_nil in Hk|].
    rewrite <- Hrows in Hr. apply elem_of_rows_of in Hr as [Hr Hid].
    by exists r.
  - intros rows r Hr Hnull.
    destruct (rows_of (connection_id r) rows) as [|r0 rs] eqn:Hrows.
    { assert (r ∈ rows_of (connection_id r) rows) as Hin
        by by apply elem_of_rows_of.
      rewrite Hrows in Hin. by apply elem_of_nil in Hin. }
    assert (getitem (connection_id r) (build_map rows)
            = Some (new_connection r0)) as Hg.
    { rewrite build_map_getitem, Hrows. f_equal. apply add_rows_null.
      intros r' Hr'. rewrite <- Hrows in Hr'.
      apply elem_of_rows_of in Hr' as [Hr' Hid]. by apply Hnull. }
    eexists. split; [exact Hg|]. split; [|done].
    by eapply getitem_Some_values.
Qed.

Lemma null_parameter_adds_nothing_witness :
  ∃ c, getitem 7 (build_map (Samples.rows_of_5
                               ++ [Samples.row_without_parameters]))
         = Some c
       ∧ c ∈ build_connection_dict
               (Samples.rows_of_5 ++ [Samples.row_without_parameters])
       ∧ parameters c = [].
Proof.
  apply (proj2 (proj2 (proj2 null_parameter_adds_nothing))
           (Samples.rows_of_5 ++ [Samples.row_without_parameters])
           Samples.row_without_parameters).
  - apply elem_of_app. right. by left.
  - intros r' Hr'. vm_compute in Hr'.
    repeat (apply elem_of_cons in Hr' as [->|Hr']; [by vm_compute|]).
    by apply elem_of_nil in Hr'.
Defined.

(** The last row of a connection that gives a parameter fixes its value
    in the record. *)
Lemma getitem_last_row pre r post k :
  parameter_name r = Some k →
  (∀ r', r' ∈ post → connection_id r' = connection_id r →
         parameter_name r' ≠ Some k) →
  ∃ c, getitem (connection_id r) (build_map (pre ++ r :: post)) = Some c
       ∧ getitem k (parameters c) = Some (parameter_value r).
Proof.
  intros Hk Hpost. unfold build_map.
  rewrite foldl_app. cbn [foldl]. rewrite foldl_getitem, loop_body_getitem.
  rewrite decide_True by done. rewrite record_of_Some.
  eexists. split; [done|]. rewrite add_rows_getitem_other.
  - unfold add_row. rewrite Hk. cbn. apply getitem_setitem_eq.
  - intros r' [Hr' Hid]%elem_of_rows_of. by apply Hpost.
Qed.

(** C8 (as amended).  Rows that share a connection id are folded into one
    record: the output has exactly one record for each distinct id of the
    rows.  For each parameter name the rows of a connection give, the
    record holds the value of the last row that gives it; so it holds the
    pair of every row whose parameter name no row of the connection gives
    with another value.  The two rows of connection 5 give the single
    record with the parameters ["hostname"] and ["port"]. *)
Theorem rows_fold_into_one_record :
  (∀ rows,
     NoDup (keys (build_map rows))
     ∧ length (build_connection_dict rows)
       = size (list_to_set (connection_id <$> rows) : gset Z))
  ∧ (∀ pre r post k,
       parameter_name r = Some k →
       (∀ r', r' ∈ post → connection_id r' = connection_id r →
              parameter_name r' ≠ Some k) →
       ∃ c, getitem (connection_id r) (build_map (pre ++ r :: post)) = Some c
            ∧ c ∈ build_connection_dict (pre ++ r :: post)
            ∧ getitem k (parameters c) = Some (parameter_value r))
  ∧ (∀ rows r k,
       r ∈ rows → parameter_name r = Some k →
       (∀ r', r' ∈ rows → connection_id r' = connection_id r →
              parameter_name r' = Some k →
              parameter_value r' = parameter_value r) →
       ∃ c, getitem (connection_id r) (build_map rows) = Some c
            ∧ c ∈ build_connection_dict rows
            ∧ getitem k (parameters c) = Some (parameter_value r))
  ∧ build_connection_dict Samples.rows_of_5
    = [{| name := Some "srv"; protocol := Some "rdp";
          group := Some "ROOT/lab";
          parameters := [("hostname", Some "10.0.0.1");
                         ("port", Some "3389")] |}].
Proof.
  split; [|split; [|split; [|reflexivity]]].
  - intros rows. destruct (build_map_keys rows) as [Hnd Hin].
    split; [done|]. unfold build_connection_dict, values, keys in *.
    rewrite length_fmap, <- (length_fmap fst).
    rewrite <- (size_list_to_set (C:=gset Z)) by done.
    f_equal. apply set_eq. intros i.
    by rewrite !elem_of_list_to_set, Hin.
  - intros pre r post k Hk Hpost.
    destruct (getitem_last_row pre r post k Hk Hpost) as (c & Hc & Hv).
    exists c. split; [done|]. split; [|done].
    by eapply getitem_Some_values.
  - intros rows r k Hr Hk Hsame.
    destruct (rows_of (connection_id r) rows) as [|r0 rs] eqn:Hrows.
    { assert (r ∈ rows_of (connection_id r) rows) as Hin
        by by apply elem_of_rows_of.
      rewrite Hrows in Hin. by apply elem_of_nil in Hin. }
    eexists. split; [by rewrite build_map_getitem, Hrows|]. split.
    + eapply getitem_Some_values. by rewrite build_map_getitem, Hrows.
    + rewrite <- Hrows. apply add_rows_getitem.
      * intros r' [Hr' Hid]%elem_of_rows_of. by apply Hsame.
      * left. exists r. split; [by apply elem_of_rows_of|done].
Qed.

Lemma rows_fold_into_one_record_witness :
  (∃ c, getitem 5 (build_map Samples.port_given_twice) = Some c
        ∧ c ∈ build_connection_dict Samples.port_given_twice
        ∧ getitem "port" (parameters c) = Some (Some "3390"))
  ∧ ∃ c, getitem 5 (build_map Samples.rows_of_5) = Some c
         ∧ c ∈ build_connection_dict Samples.rows_of_5
         ∧ getitem "port" (parameters c) = Some (Some "3389").
Proof.
  split.
  - apply (proj1 (proj2 rows_fold_into_one_record)
             [(5, Some "srv", Some "ROOT/lab", Some "rdp",
               Some "port", Some "3389")]
             (5, Some "srv", Some "ROOT/lab", Some "rdp",
              Some "port", Some "3390") [] "port"); [reflexivity|].
    by intros r' ?%elem_of_nil.
  - apply (proj1 (proj2 (proj2 rows_fold_into_one_record)) Samples.rows_of_5
             (5, Some "srv", Some "ROOT/lab", Some "rdp",
              Some "port", Some "3389") "port").
    + right. by left.
    + reflexivity.
    + intros r' Hr'. vm_compute in Hr'.
      repeat (apply elem_of_cons in Hr' as [->|Hr']; [by vm_compute|]).
      by apply elem_of_nil in Hr'.
Defined.

(** C8 as stated fails: these two rows share the connection id 5 and both
    give the parameter ["port"]; they are folded into one record, whose
    parameters hold the pair of the second row only, not all the pairs of
    the rows. *)
Lemma rows_fold_into_one_record_counterexample :
  connection_id <$> Samples.port_given_twice = [5; 5]
  ∧ build_connection_dict Samples.port_given_twice
    = [{| name := Some "srv"; protocol := Some "rdp";
          group := Some "ROOT/lab";
          parameters := [("port", Some "3390")] |}]
  ∧ ¬ ∀ r k, r ∈ Samples.port_given_twice → parameter_name r = Some k →
             ∃ c, c ∈ build_connection_dict Samples.port_given_twice
                  ∧ (k, parameter_value r) ∈ parameters c.
Proof.
  split; [reflexivity|]. split; [reflexivity|]. intros H.
  destruct (H (5, Some "srv", Some "ROOT/lab", Some "rdp",
               Some "port", Some "3389") "port") as (c & Hc & Hp).
  - by left.
  - reflexivity.
  - vm_compute in Hc. apply list_elem_of_singleton in Hc as ->.
    cbn in Hp. apply list_elem_of_singleton in Hp. discriminate Hp.
Qed.

(** ** The database session *)

(** On the paths that reach the [try] of [main], the session is closed:
    after the export was written and after a failure to write it. *)
Lemma session_closed_after_fetch w rows :
  connect_error w = None → query_result w = inr rows →
  SessionOpened ∈ (run w).1 ∧ SessionClosed ∈ (run w).1
  ∧ (run w).2 = match write_error w with Some _ => 1 | None => 0 end.
Proof.
  intros Hc Hq. unfold run, main, connect_to_db,
    fetch_connections_and_params.
  rewrite Hc, Hq. destruct (write_error w) as [e|]; cbn.
  all: rewrite !elem_of_cons; tauto.
Qed.

Lemma session_closed_samples :
  SessionClosed ∈ (run Samples.all_well).1 ∧ (run Samples.all_well).2 = 0
  ∧ SessionClosed ∈ (run Samples.write_fails).1
  ∧ (run Samples.write_fails).2 = 1.
Proof.
  destruct (session_closed_after_fetch Samples.all_well Samples.rows_of_5
              eq_refl eq_refl) as (_ & H1 & H2).
  destruct (session_closed_after_fetch Samples.write_fails Samples.rows_of_5
              eq_refl eq_refl) as (_ & H3 & H4).
  done.
Qed.

(** C5, on the path where it fails.  When the session was opened and the
    query fails, [fetch_connections_and_params] closes its cursor and
    leaves through [sys.exit(1)] before [main] has entered the [try]
    whose [finally] closes the session: the process ends with status 1
    and the session was never closed. *)
Theorem session_left_open_on_query_failure w e :
  connect_error w = None → query_result w = inl e →
  SessionOpened ∈ (run w).1
  ∧ CursorClosed ∈ (run w).1
  ∧ (SessionClosed ∉ (run w).1)
  ∧ (run w).2 = 1.
Proof.
  intros Hc Hq. unfold run, main, connect_to_db,
    fetch_connections_and_params.
  rewrite Hc, Hq. cbn. rewrite !not_elem_of_cons, !elem_of_cons.
  repeat split; try tauto; try done. apply not_elem_of_nil.
Qed.

Lemma session_left_open_on_query_failure_witness :
  SessionOpened ∈ (run Samples.query_fails).1
  ∧ CursorClosed ∈ (run Samples.query_fails).1
  ∧ (SessionClosed ∉ (run Samples.query_fails).1)
  ∧ (run Samples.query_fails).2 = 1.
Proof.
  apply (session_left_open_on_query_failure Samples.query_fails
           "relation does not exist"); reflexivity.
Defined.

End ExportProofs.

(** * Further properties of the document converter *)
Module RdmExtras.
Import Py ET Rdm RdmProofs.

#[local] Arguments name_uniqueness_check : simpl never.
#[local] Arguments name_loop : simpl never.

(** ** Invariants of the records *)

Section invariant.
Variable P : guac_dict → Prop.
Hypothesis P_set_name : ∀ n d, P d → P (set_name n d).
Hypothesis P_built : ∀ ty e sec d,
  recognized_type ty = true → build ty e sec = Ok d → P d.

Lemma check_heap st st' :
  name_uniqueness_check st = Ok st' → Forall P (heap st) → Forall P (heap st').
Proof.
  unfold name_uniqueness_check.
  destruct (v_guac_connection st) as [r|]; [|done].
  destruct (name_loop _ _ _ _ _ _) as [n| |]; cbn; [|done..].
  intros [= <-] Hst. cbn.
  destruct (decide (r < length (heap st))%nat) as [Hr|Hr].
  - apply Forall_insert; [done|]. apply P_set_name.
    apply lookup_lt_is_Some_2 in Hr as [d Hd].
    rewrite (list_lookup_total_correct _ _ _ Hd).
    by eapply (Forall_lookup_1 _ _ _ _ Hst).
  - by rewrite list_insert_ge by lia.
Qed.

Lemma loop_body_heap st e st' :
  loop_body st e = Ok st' → Forall P (heap st) → Forall P (heap st').
Proof.
  destruct (recognized e) eqn:Hrec.
  - destruct (type_section e) as [sec|] eqn:Hsec.
    + intros (d & n & Hd & _ & _ & ->)%(loop_body_built _ _ sec); [|done..].
      intros Hst. apply Forall_app. split; [done|].
      apply Forall_singleton, P_set_name.
      eapply P_built; [|done]. by apply recognized_connection_type.
    + rewrite loop_body_no_section by done. apply check_heap.
  - rewrite loop_body_skip by done. by intros [= <-].
Qed.

Lemma for_each_heap l : ∀ st st',
  for_each st l = Ok st' → Forall P (heap st) → Forall P (heap st').
Proof.
  induction l as [|e l IH]; intros st st'; cbn; [by intros [= <-]|].
  destruct (loop_body st e) as [st1| |] eqn:He; cbn; [|done..].
  intros Hl Hst. eapply IH; [done|]. by eapply loop_body_heap.
Qed.

(** What holds of every record a branch builds, whatever its name, holds of
    every record the converter returns. *)
Lemma returned_records root l :
  convert_elements root = Ok l → Forall P l.
Proof.
  unfold convert_elements.
  destruct (for_each _ _) as [st| |] eqn:Hst; cbn; [|done..].
  intros [= <-]. pose proof (for_each_heap _ _ _ Hst (Forall_nil_2 _)) as Hh.
  destruct (for_each_state_ok _ _ _ Hst initial_state_ok) as [Hv _].
  apply Forall_forall. intros d (r & -> & Hr)%list_elem_of_fmap.
  apply Hv, lookup_lt_is_Some_2 in Hr as [d Hd].
  rewrite (list_lookup_total_correct _ _ _ Hd).
  by eapply (Forall_lookup_1 _ _ _ _ Hh).
Qed.
End invariant.

(** ** Documents whose recognized elements have their sections *)

(** With every section present, the loop appends one record for each
    recognized element, built from that element, under a name that no
    earlier record of the run has. *)
Lemma for_each_built l : ∀ st st',
  (∀ e, e ∈ l → recognized e = true → is_Some (type_section e)) →
  valid_refs st → for_each st l = Ok st' →
  valid_refs st'
  ∧ ∃ ds, connections st' = connections st ++ ds
          ∧ Forall2 built_from (List.filter recognized l) ds
          ∧ NoDup (name <$> ds)
          ∧ (∀ d, d ∈ ds → name d ∉ v_used_names st)
          ∧ v_used_names st ⊆ v_used_names st'.
Proof.
  induction l as [|e l IH]; intros st st' Hl Hst; cbn.
  - intros [= <-]. split; [done|]. exists []. rewrite app_nil_r.
    split; [done|]. split; [constructor|]. split; [constructor|].
    split; [by intros d ?%elem_of_nil|done].
  - destruct (loop_body st e) as [st1| |] eqn:He; cbn; [|done..].
    intros Hst'. assert (∀ e', e' ∈ l → recognized e' = true →
                               is_Some (type_section e')) as Hl'.
    { intros e' He'. apply Hl. by right. }
    destruct (recognized e) eqn:Hrec.
    + destruct (Hl e) as [sec Hsec]; [by left|done|].
      destruct (loop_body_built _ _ _ _ Hrec Hsec He)
        as (d & n & Hd & _ & Hfresh & ->).
      destruct (IH _ _ Hl' (valid_refs_appended _ d n _ Hst) Hst')
        as (Hv & ds & Hds & Hb & Hnd & Hnew & Hsub).
      cbn in Hnew, Hsub.
      split; [done|]. exists (set_name n d :: ds). split.
      { by rewrite Hds, connections_appended, <- app_assoc. }
      split. { constructor; [|done]. by exists sec, d. }
      split.
      { cbn. apply NoDup_cons. split; [|done].
        intros (d' & Hn & Hd')%list_elem_of_fmap.
        apply (Hnew d' Hd'). rewrite <- Hn. cbn.
        apply elem_of_union_l. by apply elem_of_singleton. }
      split.
      { intros d' [->|Hd']%elem_of_cons; [done|].
        intros Hin. apply (Hnew d' Hd'). by apply elem_of_union_r. }
      intros x Hx. apply Hsub. by apply elem_of_union_r.
    + rewrite loop_body_skip in He by done. injection He as <-.
      by apply IH.
Qed.

Lemma sections_of_recognized root :
  (∀ e, e ∈ recognized_elements root → is_Some (type_section e)) →
  ∀ e, e ∈ findall_descendants "Connection" root →
       recognized e = true → is_Some (type_section e).
Proof.
  intros Hsec e He Hrec. apply Hsec. unfold recognized_elements.
  apply list_elem_of_In, filter_In. by rewrite <- list_elem_of_In.
Qed.

Lemma records_built root l :
  (∀ e, e ∈ recognized_elements root → is_Some (type_section e)) →
  convert_elements root = Ok l →
  Forall2 built_from (recognized_elements root) l ∧ NoDup (name <$> l).
Proof.
  intros Hsec. unfold convert_elements.
  destruct (for_each _ _) as [st| |] eqn:Hst; cbn; [|done..].
  intros [= <-].
  apply for_each_built in Hst as (_ & ds & -> & Hb & Hnd & _);
    [done|by apply sections_of_recognized|by intros r ?%elem_of_nil].
Qed.

Lemma records_built_recognized root l :
  (∀ e, e ∈ recognized_elements root → is_Some (type_section e)) →
  convert_elements root = Ok l →
  Forall2 (λ e d, recognized e = true ∧ built_from e d)
    (recognized_elements root) l.
Proof.
  intros Hsec Hl. destruct (records_built root l Hsec Hl) as [Hb _].
  pose proof (recognized_elements_recognized root) as Hr. clear Hsec Hl.
  induction Hb as [|e d es ds He _ IH]; constructor.
  - split; [|done]. apply Hr. by left.
  - apply IH. intros e' He'. apply Hr. by right.
Qed.

(** X1.  In a document whose recognized elements all have the section of
    their type, the names of the returned records are pairwise distinct. *)
Theorem names_unique root l :
  (∀ e, e ∈ recognized_elements root → is_Some (type_section e)) →
  convert_elements root = Ok l →
  NoDup (name <$> l).
Proof. intros Hsec Hl. by apply (records_built root l). Qed.

Lemma three_servers_sections e :
  e ∈ recognized_elements Samples.three_servers → is_Some (type_section e).
Proof.
  intros He. vm_compute in He.
  repeat (apply elem_of_cons in He as [->|He]; [by eexists|]).
  by apply elem_of_nil in He.
Qed.

Lemma names_unique_witness :
  ∃ l, convert_elements Samples.three_servers = Ok l ∧ NoDup (name <$> l).
Proof.
  destruct (convert_elements Samples.three_servers) as [l| |] eqn:Hl;
    [|by vm_compute in Hl..].
  exists l. split; [done|].
  apply (names_unique Samples.three_servers l); [|done].
  apply three_servers_sections.
Defined.

(** ** Ports *)

Lemma int_digits_nonneg s : ∀ acc,
  all_chars is_decimal_char s = true → 0 ≤ acc → 0 ≤ int_digits acc s.
Proof.
  induction s as [|c s IH]; intros acc; cbn; [done|].
  intros [Hc Hs]%andb_true_iff Hacc. apply IH; [done|].
  unfold is_decimal_char in Hc. apply andb_true_iff in Hc as [Hc _].
  apply N.leb_le in Hc. lia.
Qed.

(** What [port_of] returns when it returns. *)
Lemma port_of_Ok port_elem dflt z :
  port_of port_elem dflt = Ok z →
  (port_elem = None → z = dflt)
  ∧ ∀ p t, port_elem = Some p → text p = Some t →
      (isdigit t = false → z = dflt)
      ∧ (isdigit t = true →
         z = int_digits 0 t ∧ 0 ≤ z
         ∧ all_chars is_decimal_char t = true
         ∧ (String.length t ≤ max_str_digits)%nat).
Proof.
  unfold port_of. destruct port_elem as [p|].
  - intros Hz. split; [done|]. intros p' t [= <-] Ht. rewrite Ht in Hz.
    destruct (isdigit t); [|by injection Hz as <-].
    split; [done|]. intros _. unfold int in Hz.
    destruct (all_chars is_decimal_char t) eqn:Hdec; [|done].
    destruct (max_str_digits <? String.length t)%nat eqn:Hlen; [done|].
    injection Hz as <-. apply Nat.ltb_ge in Hlen.
    split; [done|]. split; [by apply int_digits_nonneg|done].
  - intros [= <-]. split; [done|]. by intros p t [=].
Qed.

Lemma build_port ty e sec d :
  recognized_type ty = true → build ty e sec = Ok d →
  ∃ z, port_of (find (port_tag ty) sec) (default_port ty) = Ok z
       ∧ getitem "port" (parameters d) = Some (PInt z).
Proof.
  intros [->|[->|[->| ->]]]%recognized_type_cases;
    unfold build, port_tag, default_port, ssh_connection, rdp_connection,
      vnc_connection; simpl.
  all: destruct (port_of _ _) as [z| |]; simpl; [|done..].
  all: intros [= <-]; exists z; split; [done|]; cbn [parameters].
  all: repeat case_bool_decide; repeat destruct (truthy _).
  all: by vm_compute.
Qed.

Lemma port_element_section e sec :
  type_section e = Some sec →
  port_element e = find (port_tag (connection_type e)) sec.
Proof. unfold port_element. by intros ->. Qed.

(** X2.  In a document whose recognized elements all have their section,
    the ["port"] parameter of each returned record is a non-negative
    integer: the default of the type (22 for SSH, 3389 for RDP, 5900 for
    VNC) when the element has no port element or one whose text is not all
    digits, and the decimal value of the text otherwise. *)
Theorem ports_of_records root l :
  (∀ e, e ∈ recognized_elements root → is_Some (type_section e)) →
  convert_elements root = Ok l →
  Forall2
    (λ e d,
       ∃ z, getitem "port" (parameters d) = Some (PInt z) ∧ 0 ≤ z
            ∧ (port_element e = None → z = default_port (connection_type e))
            ∧ ∀ p t, port_element e = Some p → text p = Some t →
                (isdigit t = false → z = default_port (connection_type e))
                ∧ (isdigit t = true → z = int_digits 0 t))
    (recognized_elements root) l.
Proof.
  intros Hsec Hl.
  eapply Forall2_impl; [by apply records_built_recognized|].
  intros e d [Hrec (sec & d0 & Hs & Hd & Hdd)].
  apply recognized_connection_type in Hrec.
  destruct (build_port _ _ _ _ Hrec Hd) as (z & Hz & Hp).
  exists z. rewrite Hdd. cbn. split; [done|].
  rewrite (port_element_section e sec Hs).
  destruct (port_of_Ok _ _ _ Hz) as [Hnone Hsome].
  assert (0 ≤ default_port (connection_type e)) as Hdflt.
  { unfold default_port. by repeat case_bool_decide. }
  split.
  - destruct (find _ sec) as [p|] eqn:Hf.
    + destruct (text p) as [t|] eqn:Ht.
      * destruct (Hsome p t eq_refl Ht) as [H0 H1].
        destruct (isdigit t); [by destruct (H1 eq_refl) as (_ & ? & _)|].
        by rewrite H0.
      * unfold port_of in Hz. by rewrite Ht in Hz.
    + by rewrite Hnone.
  - split; [done|]. intros p t Hf Ht.
    destruct (Hsome p t Hf Ht) as [H0 H1]. split; [done|].
    intros Hdig. by destruct (H1 Hdig) as [? _].
Qed.

Lemma ports_of_records_witness :
  ∃ l, convert_elements Samples.three_servers = Ok l
       ∧ (λ d, getitem "port" (parameters d)) <$> l
         = [Some (PInt 2222); Some (PInt 3389); Some (PInt 3390)]
       ∧ Forall2
           (λ e d,
              ∃ z, getitem "port" (parameters d) = Some (PInt z) ∧ 0 ≤ z
                   ∧ (port_element e = None →
                      z = default_port (connection_type e))
                   ∧ ∀ p t, port_element e = Some p → text p = Some t →
                       (isdigit t = false →
                        z = default_port (connection_type e))
                       ∧ (isdigit t = true → z = int_digits 0 t))
           (recognized_elements Samples.three_servers) l.
Proof.
  destruct (convert_elements Samples.three_servers) as [l| |] eqn:Hl;
    [|by vm_compute in Hl..].
  exists l. split; [done|]. split.
  - vm_compute in Hl. by injection Hl as <-.
  - apply (ports_of_records Samples.three_servers l); [|done].
    apply three_servers_sections.
Defined.

(** X3.  A port text that [isdigit] accepts and [int] refuses (a superscript
    digit, or more digits than the interpreter converts) makes the
    iteration on a recognized element end in [ValueError], whatever the
    state. *)
Theorem undecimal_port_raises st e p t :
  recognized e = true → port_element e = Some p → text p = Some t →
  isdigit t = true →
  all_chars is_decimal_char t = false
  ∨ (max_str_digits < String.length t)%nat →
  loop_body st e = Raise ValueError.
Proof.
  intros Hrec Hp Ht Hdig Hbad. unfold port_element in Hp.
  destruct (type_section e) as [sec|] eqn:Hsec; [|done]. cbn in Hp.
  rewrite (loop_body_section _ _ sec) by done.
  pose proof (build_bind (connection_type e) e sec
                (recognized_connection_type e Hrec)) as Hb.
  assert (port_of (Some p) (default_port (connection_type e))
          = Raise ValueError) as Hraise.
  { unfold port_of, int. rewrite Ht, Hdig.
    destruct (all_chars is_decimal_char t); [|done].
    destruct Hbad as [?|Hlen]; [done|].
    by apply Nat.ltb_lt in Hlen as ->. }
  rewrite Hp, Hraise in Hb. by rewrite Hb.
Qed.

Lemma undecimal_port_raises_witness :
  loop_body initial Samples.vnc_superscript_port = Raise ValueError.
Proof.
  apply (undecimal_port_raises initial Samples.vnc_superscript_port
           (Samples.leaf "Port" Samples.superscript_two)
           Samples.superscript_two); try reflexivity.
  by left.
Defined.

(** ** Elements without their section *)

Lemma length_append s1 s2 :
  String.length (s1 +:+ s2) = (String.length s1 + String.length s2)%nat.
Proof. induction s1 as [|c s1 IH]; simpl; [done|by f_equal]. Qed.

Lemma candidate_ne_original o p c : Some (candidate o p c) ≠ o.
Proof.
  destruct o as [s|]; [|done]. intros [= H].
  apply (f_equal String.length) in H. unfold candidate in H. cbn in H.
  destruct (1 <? c); rewrite ?length_append in H; cbn in H; lia.
Qed.

(** X4.  When the recognized elements of a document are a complete one
    followed by one that lacks the section of its type, the converter
    returns the record of the first element twice and no record of the
    second: the second iteration works on the object of the first, renames
    it to its name followed by the parenthesized type label of the first,
    and appends it again. *)
Theorem missing_section_duplicates root e1 e2 :
  recognized_elements root = [e1; e2] →
  complete e1 = true → type_section e2 = None →
  ∃ sec d0 d,
    type_section e1 = Some sec
    ∧ build (connection_type e1) e1 sec = Ok d0
    ∧ d = set_name
            (Some (str (of_text (name d0)) +:+ " ("
                   +:+ type_label (connection_type e1) +:+ ")")) d0
    ∧ convert_elements root = Ok [d; d]
    ∧ ∀ s, declared_name e1 = Some s →
           name d = Some (s +:+ " (" +:+ type_label (connection_type e1)
                          +:+ ")").
Proof.
  intros Hroot Hc1 Hs2.
  assert (recognized e1 = true) as Hr1.
  { apply (recognized_elements_recognized root). rewrite Hroot. by left. }
  assert (recognized e2 = true) as Hr2.
  { apply (recognized_elements_recognized root). rewrite Hroot.
    by right; left. }
  unfold convert_elements. rewrite for_each_recognized, Hroot.
  cbn [for_each].
  destruct (loop_body_complete initial e1 Hr1 Hc1)
    as (sec & d0 & n1 & Hsec & Hd0 & Hl1 & _ & ->).
  rewrite name_loop_unused in Hl1 by apply not_elem_of_empty.
  injection Hl1 as <-. cbn [mbind result_bind bind].
  rewrite loop_body_no_section by done.
  set (label := type_label (connection_type e1)).
  destruct (check_stale (appended initial d0 (name d0) label) 0 label
              eq_refl eq_refl) as (n & Hn & _ & ->).
  cbn in Hn. change (2 + ?k)%nat with (S (S k)) in Hn.
  rewrite name_loop_unfold, bool_decide_eq_true_2 in Hn.
  2: { apply elem_of_union_l. by apply elem_of_singleton. }
  rewrite name_loop_unfold, bool_decide_eq_false_2 in Hn.
  2: { rewrite elem_of_union, elem_of_singleton, elem_of_empty.
       intros [H|[]]. by apply candidate_ne_original in H. }
  injection Hn as <-. cbn.
  exists sec, d0, (set_name (Some (candidate (name d0) label 1)) d0).
  split; [done|]. split; [done|]. split; [done|]. split; [done|].
  intros s Hs. cbn.
  by rewrite (declared_name_built e1 sec d0 s Hr1 Hd0 Hs).
Qed.

Lemma missing_section_duplicates_witness :
  ∃ sec d0 d,
    type_section (Samples.ssh_server1 "x") = Some sec
    ∧ build (connection_type (Samples.ssh_server1 "x"))
        (Samples.ssh_server1 "x") sec = Ok d0
    ∧ d = set_name
            (Some (str (of_text (name d0)) +:+ " ("
                   +:+ type_label (connection_type (Samples.ssh_server1 "x"))
                   +:+ ")")) d0
    ∧ convert_elements Samples.ssh_then_no_section = Ok [d; d]
    ∧ ∀ s, declared_name (Samples.ssh_server1 "x") = Some s →
           name d
           = Some (s +:+ " ("
                   +:+ type_label (connection_type (Samples.ssh_server1 "x"))
                   +:+ ")").
Proof.
  apply (missing_section_duplicates Samples.ssh_then_no_section
           (Samples.ssh_server1 "x") Samples.vnc_without_section);
    reflexivity.
Defined.

(** X5.  When the first recognized element of a document lacks the section
    of its type, the converter ends in [UnboundLocalError], whatever
    follows, and the script prints nothing and ends with status 1. *)
Theorem first_without_section_raises root e rest fs script path :
  recognized_elements root = e :: rest → type_section e = None →
  fs path = Document root →
  convert_elements root = Raise UnboundLocalError
  ∧ convert_rdm_to_guac_json fs path = Raise UnboundLocalError
  ∧ main fs [script; path] = Exit [] 1.
Proof.
  intros Hroot Hs Hfs.
  assert (recognized e = true) as Hr.
  { apply (recognized_elements_recognized root). rewrite Hroot. by left. }
  assert (convert_elements root = Raise UnboundLocalError) as Hc.
  { unfold convert_elements. rewrite for_each_recognized, Hroot.
    cbn [for_each]. by rewrite loop_body_no_section. }
  split; [done|].
  assert (convert_rdm_to_guac_json fs path = Raise UnboundLocalError) as Hj.
  { unfold convert_rdm_to_guac_json. by rewrite Hfs, Hc. }
  split; [done|]. unfold main. cbn. by rewrite Hj.
Qed.

Lemma first_without_section_raises_witness :
  convert_elements Samples.ssh_without_terminal = Raise UnboundLocalError
  ∧ convert_rdm_to_guac_json (λ _, Document Samples.ssh_without_terminal)
      "export.rdm" = Raise UnboundLocalError
  ∧ main (λ _, Document Samples.ssh_without_terminal)
      ["rdm_to_guac_json.py"; "export.rdm"] = Exit [] 1.
Proof.
  apply (first_without_section_raises Samples.ssh_without_terminal
           (Samples.node "Connection"
              [Samples.leaf "ConnectionType" "SSHShell";
               Samples.leaf "Name" "Server1"]) []); reflexivity.
Defined.

(** X6.  A document without any recognized connection element does not
    give the empty JSON list: the function returns the text that no
    supported connection was found, and the script prints it and ends
    with status 0. *)
Theorem nothing_supported_message root fs script path :
  recognized_elements root = [] → fs path = Document root →
  convert_rdm_to_guac_json fs path
    = Ok "No supported connections (SSHShell, RDP, RDPConfigured, VNC) found in the provided XML."
  ∧ main fs [script; path]
    = Exit ["No supported connections (SSHShell, RDP, RDPConfigured, VNC) found in the provided XML."] 0.
Proof.
  intros Hroot Hfs.
  assert (convert_elements root = Ok []) as Hc.
  { unfold convert_elements. by rewrite for_each_recognized, Hroot. }
  assert (convert_rdm_to_guac_json fs path
          = Ok "No supported connections (SSHShell, RDP, RDPConfigured, VNC) found in the provided XML.")
    as Hj.
  { unfold convert_rdm_to_guac_json. by rewrite Hfs, Hc. }
  split; [done|]. unfold main. cbn. by rewrite Hj.
Qed.

Lemma nothing_supported_message_witness :
  convert_rdm_to_guac_json (λ _, Document Samples.nothing_supported) "a.rdm"
    = Ok "No supported connections (SSHShell, RDP, RDPConfigured, VNC) found in the provided XML."
  ∧ main (λ _, Document Samples.nothing_supported)
      ["rdm_to_guac_json.py"; "a.rdm"]
    = Exit ["No supported connections (SSHShell, RDP, RDPConfigured, VNC) found in the provided XML."] 0.
Proof.
  apply (nothing_supported_message Samples.nothing_supported); reflexivity.
Defined.

(** ** What every returned record looks like *)

Lemma chars_replace a b s :
  chars (replace a b s) = (λ c, if Ascii.eqb c a then b else c) <$> chars s.
Proof. induction s as [|c s IH]; cbn; [done|by rewrite IH]. Qed.

Lemma replace_removes a b s : a ≠ b → a ∉ chars (replace a b s).
Proof.
  intros Hab. rewrite chars_replace.
  intros (c & Hc & _)%list_elem_of_fmap.
  destruct (Ascii.eqb c a) eqn:Hca; [done|].
  apply Ascii.eqb_neq in Hca. congruence.
Qed.

(** X7.  Whatever the document, the group of a returned record, when it
    has one, is ["ROOT/"] followed by a non-empty path in which no
    backslash is left. *)
Theorem groups_normalized root l :
  convert_elements root = Ok l →
  Forall (λ d, ∀ g, group d = Some g →
                    ∃ p, g = "ROOT/" +:+ p ∧ p ≠ ""
                         ∧ ascii_of_N 92 ∉ chars p) l.
Proof.
  apply returned_records.
  - by intros n d.
  - intros ty e sec d Hty Hd g. rewrite (built_group ty e sec d Hty Hd).
    unfold guac_group_path.
    destruct (text_or_empty _) as [[|c s]|]; [done| |done].
    intros [= <-]. eexists. split; [done|]. split.
    + cbn. by destruct (Ascii.eqb c _).
    + apply (replace_removes (ascii_of_N 92) (ascii_of_N 47) (String c s)).
      discriminate.
Qed.

Lemma groups_normalized_witness :
  ∃ l, convert_elements Samples.ssh_then_no_section = Ok l
       ∧ Forall (λ d, ∀ g, group d = Some g →
                           ∃ p, g = "ROOT/" +:+ p ∧ p ≠ ""
                                ∧ ascii_of_N 92 ∉ chars p) l.
Proof.
  destruct (convert_elements Samples.ssh_then_no_section) as [l| |] eqn:Hl;
    [|by vm_compute in Hl..].
  exists l. split; [done|].
  by apply (groups_normalized Samples.ssh_then_no_section l).
Defined.

Lemma build_shape ty e sec d :
  recognized_type ty = true → build ty e sec = Ok d →
  protocol d ∈ ["ssh"; "rdp"; "vnc"]
  ∧ ∃ h, getitem "hostname" (parameters d) = Some (of_text h).
Proof.
  intros [->|[->|[->| ->]]]%recognized_type_cases;
    unfold build, ssh_connection, rdp_connection, vnc_connection; simpl.
  all: destruct (port_of _ _) as [z| |]; simpl; [|done..].
  all: intros [= <-]; cbn [protocol parameters].
  all: split; [rewrite !elem_of_cons; tauto|].
  all: eexists; repeat case_bool_decide; repeat destruct (truthy _).
  all: by vm_compute.
Qed.

(** X8.  Whatever the document, every returned record has one of the
    protocols ["ssh"], ["rdp"], ["vnc"], a ["hostname"] parameter that is a
    text or [None], and a ["port"] parameter that is a non-negative
    integer. *)
Theorem records_well_shaped root l :
  convert_elements root = Ok l →
  Forall (λ d, protocol d ∈ ["ssh"; "rdp"; "vnc"]
               ∧ (∃ h, getitem "hostname" (parameters d) = Some (of_text h))
               ∧ ∃ z, getitem "port" (parameters d) = Some (PInt z) ∧ 0 ≤ z) l.
Proof.
  apply returned_records.
  - by intros n d.
  - intros ty e sec d Hty Hd.
    destruct (build_shape ty e sec d Hty Hd) as [Hp Hh].
    split; [done|]. split; [done|].
    destruct (build_port ty e sec d Hty Hd) as (z & Hz & Hport).
    exists z. split; [done|].
    assert (0 ≤ default_port ty) as Hdflt.
    { unfold default_port. by repeat case_bool_decide. }
    destruct (port_of_Ok _ _ _ Hz) as [Hnone Hsome].
    destruct (find _ sec) as [p|] eqn:Hf; [|by rewrite Hnone].
    destruct (text p) as [t|] eqn:Ht.
    + destruct (Hsome p t eq_refl Ht) as [H0 H1].
      destruct (isdigit t); [by destruct (H1 eq_refl) as (_ & ? & _)|].
      by rewrite H0.
    + unfold port_of in Hz. by rewrite Ht in Hz.
Qed.

Lemma records_well_shaped_witness :
  ∃ l, convert_elements Samples.ssh_then_no_section = Ok l
       ∧ Forall (λ d, protocol d ∈ ["ssh"; "rdp"; "vnc"]
                      ∧ (∃ h, getitem "hostname" (parameters d)
                              = Some (of_text h))
                      ∧ ∃ z, getitem "port" (parameters d) = Some (PInt z)
                             ∧ 0 ≤ z) l.
Proof.
  destruct (convert_elements Samples.ssh_then_no_section) as [l| |] eqn:Hl;
    [|by vm_compute in Hl..].
  exists l. split; [done|].
  by apply (records_well_shaped Samples.ssh_then_no_section l).
Defined.

(** ** The name check *)



Lemma name_loop_more_fuel fuel used o p k : ∀ u c n,
  name_loop fuel used o p u c = Ok n →
  name_loop (fuel + k) used o p u c = Ok n.
Proof.
  induction fuel as [|fuel IH]; intros u c n.
  - unfold name_loop. case_bool_decide as Hu; [done|]. intros [= <-].
    by apply name_loop_unused.
  - cbn [Nat.add]. destruct p as [p|].
    + rewrite !name_loop_unfold. case_bool_decide; [apply IH|done].
    + intros Hn. assert ((u ∉ used) ∧ n = u) as [Hu ->].
      { unfold name_loop in Hn. case_bool_decide; [done|].
        by injection Hn as <-. }
      by apply name_loop_unused.
Qed.

(** X10.  The [while] loop of the name check always ends, after at most two
    more tests than there are names in use, and so do the function and the
    script: more iterations than that are never needed, whatever the set
    of names. *)
Theorem name_check_ends :
  (∀ used o p u,
     ∃ n, ∀ fuel, (2 + size used ≤ fuel)%nat →
                  name_loop fuel used o (Some p) u 1 = Ok n)
  ∧ (∀ fs path, convert_rdm_to_guac_json fs path ≠ OutOfFuel)
  ∧ (∀ fs argv, main fs argv ≠ Diverges).
Proof.
  split; [|split].
  - intros used o p u.
    destruct (name_loop_fresh used o p u) as (n & Hn & _). exists n.
    intros fuel Hfuel.
    replace fuel with ((2 + size used) + (fuel - (2 + size used)))%nat by lia.
    by apply name_loop_more_fuel.
  - apply convert_never_out_of_fuel.
  - apply main_ends.
Qed.

Lemma name_check_ends_witness :
  ∃ n, name_loop 7 {[Some "a"]} (Some "a") (Some "SSH") (Some "a") 1 = Ok n.
Proof.
  destruct (proj1 name_check_ends {[Some "a"]} (Some "a") "SSH" (Some "a"))
    as [n Hn].
  exists n. apply Hn. rewrite size_singleton. lia.
Defined.

Lemma append_assoc s1 s2 s3 : (s1 +:+ s2) +:+ s3 = s1 +:+ (s2 +:+ s3).
Proof.
  induction s1 as [|c s1 IH]; [done|].
  change (String c ((s1 +:+ s2) +:+ s3) = String c (s1 +:+ s2 +:+ s3)).
  by rewrite IH.
Qed.

Lemma candidate_1 s label :
  candidate (Some s) label 1 = s +:+ " (" +:+ label +:+ ")".
Proof. reflexivity. Qed.

Lemma candidate_2 s label :
  candidate (Some s) label 2 = s +:+ " (" +:+ label +:+ ")_2".
Proof.
  unfold candidate. change (1 <? 2) with true. cbv iota.
  change (str (PInt 2)) with "2". cbn [str of_text].
  by rewrite !append_assoc.
Qed.

Lemma candidate_2_ne_1 o label : candidate o label 2 ≠ candidate o label 1.
Proof.
  intros H. apply (f_equal String.length) in H. unfold candidate in H.
  change (1 <? 2) with true in H. change (1 <? 1) with false in H.
  cbv iota in H. change (str (PInt 2)) with "2" in H.
  rewrite length_append in H.
  change (String.length ("_" +:+ "2")) with 2%nat in H. lia.
Qed.

(** X11.  When the recognized elements of a document are three complete
    ones that declare the same name [s], the last two of types with the
    same label [L], the converter names the records [s], [s (L)] and
    [s (L)_2]: the number appears at the second collision, and starts
    at 2. *)
Theorem second_collision_numbered root e1 e2 e3 s :
  recognized_elements root = [e1; e2; e3] →
  complete e1 = true → complete e2 = true → complete e3 = true →
  declared_name e1 = Some s → declared_name e2 = Some s →
  declared_name e3 = Some s →
  type_label (connection_type e3) = type_label (connection_type e2) →
  ∃ l, convert_elements root = Ok l
       ∧ name <$> l
         = [Some s;
            Some (s +:+ " (" +:+ type_label (connection_type e2) +:+ ")");
            Some (s +:+ " (" +:+ type_label (connection_type e2) +:+ ")_2")].
Proof.
  intros Hroot Hc1 Hc2 Hc3 Hn1 Hn2 Hn3 Hlabel.
  assert (recognized e1 = true ∧ recognized e2 = true ∧ recognized e3 = true)
    as (Hr1 & Hr2 & Hr3).
  { repeat split; apply (recognized_elements_recognized root);
      rewrite Hroot, !elem_of_cons; tauto. }
  unfold convert_elements. rewrite for_each_recognized, Hroot.
  cbn [for_each].
  destruct (loop_body_complete initial e1 Hr1 Hc1)
    as (sec1 & d1 & n1 & _ & Hd1 & Hl1 & _ & ->).
  apply (declared_name_built _ _ _ s) in Hd1; [|done..].
  rewrite Hd1, name_loop_unused in Hl1 by apply not_elem_of_empty.
  injection Hl1 as <-.
  set (st1 := appended initial d1 _ _). cbn [mbind result_bind bind].
  destruct (loop_body_complete st1 e2 Hr2 Hc2)
    as (sec2 & d2 & n2 & _ & Hd2 & Hl2 & _ & ->).
  apply (declared_name_built _ _ _ s) in Hd2; [|done..].
  rewrite Hd2 in Hl2. subst st1.
  cbn [appended v_used_names initial] in Hl2.
  change (2 + ?n)%nat with (S (S n)) in Hl2.
  rewrite name_loop_unfold, bool_decide_eq_true_2 in Hl2.
  2: { apply elem_of_union_l. by apply elem_of_singleton. }
  rewrite name_loop_unfold, bool_decide_eq_false_2 in Hl2.
  2: { rewrite elem_of_union, elem_of_singleton, elem_of_empty.
       intros [H|[]]. by apply candidate_ne_original in H. }
  injection Hl2 as <-.
  set (st2 := appended _ d2 _ _). cbn [mbind result_bind bind].
  destruct (loop_body_complete st2 e3 Hr3 Hc3)
    as (sec3 & d3 & n3 & _ & Hd3 & Hl3 & _ & ->).
  apply (declared_name_built _ _ _ s) in Hd3; [|done..].
  rewrite Hd3, Hlabel in Hl3. subst st2.
  cbn [appended v_used_names initial] in Hl3.
  change (2 + ?n)%nat with (S (S n)) in Hl3.
  rewrite name_loop_unfold, bool_decide_eq_true_2 in Hl3.
  2: { apply elem_of_union_r, elem_of_union_l. by apply elem_of_singleton. }
  rewrite name_loop_unfold, bool_decide_eq_true_2 in Hl3.
  2: { apply elem_of_union_l. by apply elem_of_singleton. }
  rewrite name_loop_unused in Hl3.
  2: { rewrite !elem_of_union, !elem_of_singleton, elem_of_empty.
       intros [[= H]|[H|[]]].
       - by apply candidate_2_ne_1 in H.
       - by apply candidate_ne_original in H. }
  injection Hl3 as <-.
  eexists. split; [reflexivity|].
  by rewrite <- candidate_2, <- candidate_1.
Qed.

Lemma second_collision_numbered_witness :
  ∃ l, convert_elements Samples.three_servers = Ok l
       ∧ name <$> l
         = [Some "Server1"; Some ("Server1" +:+ " (" +:+ "RDP" +:+ ")");
            Some ("Server1" +:+ " (" +:+ "RDP" +:+ ")_2")].
Proof.
  apply (second_collision_numbered Samples.three_servers
           (Samples.ssh_server1 "x") Samples.rdp_server1
           Samples.rdp_server1_again "Server1"); reflexivity.
Defined.

(** ** The RDP branch *)

Lemma rdp_parameters e sec d :
  rdp_connection e sec = Ok d →
  getitem "hostname" (parameters d)
  = Some (of_text (text_or_empty (or_else (find "Host" sec) (find "Url" e))))
  ∧ getitem "domain" (parameters d)
    = match text_or_empty (find "Domain" sec) with
      | Some (String c s) => Some (PStr (String c s))
      | _ => None
      end
  ∧ getitem "resize-method" (parameters d)
    = if bool_decide (text_or_empty (find "ScreenSizingMode" sec)
                      = Some "FitToWindow")
      then Some (PStr "scale")
      else if bool_decide (text_or_empty (find "ScreenSizingMode" sec)
                           = Some "FullScreen")
      then Some (PStr "none")
      else None.
Proof.
  unfold rdp_connection. cbv zeta.
  destruct (port_of _ _) as [z| |]; cbn [mbind result_bind bind]; [|done..].
  intros [= <-]. cbn [parameters].
  generalize (text_or_empty (or_else (find "Host" sec) (find "Url" e))).
  generalize (text_or_empty (find "UserName" sec)).
  generalize (text_or_empty (find "Domain" sec)).
  generalize (text_or_empty (find "ScreenSizingMode" sec)).
  intros mode dom user host.
  destruct dom as [[|c s]|]; repeat case_bool_decide; by vm_compute.
Qed.

(** X12.  In the RDP branch the [Host] element of the section is used only
    when it has child elements; a [Host] without children, however much
    text it has, is passed over like a missing one, and the host name is
    the text of the [Url] child of the connection, or the empty text when
    there is no [Url]. *)
Theorem rdp_host_rule e sec d :
  rdp_connection e sec = Ok d →
  (∀ h, find "Host" sec = Some h → children h ≠ [] →
        getitem "hostname" (parameters d) = Some (of_text (text h)))
  ∧ (find "Host" sec = None
     ∨ (∃ h, find "Host" sec = Some h ∧ children h = []) →
     (∀ u, find "Url" e = Some u →
           getitem "hostname" (parameters d) = Some (of_text (text u)))
     ∧ (find "Url" e = None →
        getitem "hostname" (parameters d) = Some (PStr ""))).
Proof.
  intros (-> & _)%rdp_parameters. unfold or_else, truth. split.
  - intros h -> Hh. by destruct (children h).
  - intros [->|(h & -> & ->)]; split.
    + by intros u ->.
    + by intros ->.
    + by intros u ->.
    + by intros ->.
Qed.

Lemma rdp_host_rule_witness :
  ∃ d, rdp_connection Samples.rdp_with_host Samples.rdp_section_with_host
       = Ok d
       ∧ getitem "hostname" (parameters d) = Some (PStr "10.0.0.2").
Proof.
  destruct (rdp_connection Samples.rdp_with_host
              Samples.rdp_section_with_host) as [d| |] eqn:Hd;
    [|by vm_compute in Hd..].
  exists d. split; [done|].
  destruct (rdp_host_rule _ _ _ Hd) as [_ Hurl].
  destruct Hurl as [Hu _].
  - right. by exists (Samples.leaf "Host" "10.9.9.9").
  - by apply (Hu (Samples.leaf "Url" "10.0.0.2")).
Defined.

(** X13.  The RDP branch writes a ["domain"] parameter exactly when the
    [Domain] of the section has a non-empty text, and a ["resize-method"]
    parameter exactly for the screen sizing modes [FitToWindow], which
    becomes ["scale"], and [FullScreen], which becomes ["none"]. *)
Theorem rdp_optional_parameters e sec d :
  rdp_connection e sec = Ok d →
  (∀ s, text_or_empty (find "Domain" sec) = Some s → s ≠ "" →
        getitem "domain" (parameters d) = Some (PStr s))
  ∧ (text_or_empty (find "Domain" sec) = None
     ∨ text_or_empty (find "Domain" sec) = Some "" →
     getitem "domain" (parameters d) = None)
  ∧ (text_or_empty (find "ScreenSizingMode" sec) = Some "FitToWindow" →
     getitem "resize-method" (parameters d) = Some (PStr "scale"))
  ∧ (text_or_empty (find "ScreenSizingMode" sec) = Some "FullScreen" →
     getitem "resize-method" (parameters d) = Some (PStr "none"))
  ∧ (text_or_empty (find "ScreenSizingMode" sec) ≠ Some "FitToWindow" →
     text_or_empty (find "ScreenSizingMode" sec) ≠ Some "FullScreen" →
     getitem "resize-method" (parameters d) = None).
Proof.
  intros (_ & -> & ->)%rdp_parameters. repeat split.
  - intros s -> Hs. by destruct s.
  - by intros [-> | ->].
  - by intros ->.
  - by intros ->.
  - intros H1 H2. by rewrite !bool_decide_eq_false_2.
Qed.

Lemma rdp_optional_parameters_witness :
  ∃ d, rdp_connection Samples.rdp_with_host Samples.rdp_section_with_host
       = Ok d
       ∧ getitem "domain" (parameters d) = Some (PStr "CORP")
       ∧ getitem "resize-method" (parameters d) = Some (PStr "scale").
Proof.
  destruct (rdp_connection Samples.rdp_with_host
              Samples.rdp_section_with_host) as [d| |] eqn:Hd;
    [|by vm_compute in Hd..].
  exists d. split; [done|].
  destruct (rdp_optional_parameters _ _ _ Hd) as (Hdom & _ & Hfit & _).
  split; [by apply Hdom|by apply Hfit].
Defined.

(** ** Names *)



End RdmExtras.

(** * Further properties of the database exporter *)
Module ExportExtras.
Import Py GuacamoleExport ExportProofs.

(** ** Order of the records *)

Lemma first_seen_snoc l x :
  first_seen (l ++ [x])
  = if decide (x ∈ l) then first_seen l else first_seen l ++ [x].
Proof.
  unfold first_seen. rewrite reverse_snoc. cbn [remove_dups].
  destruct (decide_rel elem_of x (reverse l)) as [Hx|Hx];
    rewrite elem_of_reverse in Hx.
  - by rewrite decide_True.
  - by rewrite decide_False, reverse_cons.
Qed.

Lemma build_map_snoc rows r :
  build_map (rows ++ [r]) = loop_body (build_map rows) r.
Proof. unfold build_map. by rewrite foldl_snoc. Qed.

Lemma getitem_of_lookup {K V} `{!EqDecision K} (d : list (K * V)) k i v :
  NoDup (keys d) → d !! k = Some (i, v) → getitem i d = Some v.
Proof.
  unfold keys. revert k. induction d as [|[i' v'] d IH]; intros k; [done|].
  cbn. rewrite NoDup_cons. intros [Hi Hnd]. destruct k as [|k]; cbn.
  - intros [= -> ->]. by rewrite decide_True.
  - intros Hk. rewrite decide_False; [by eapply IH|].
    intros ->. apply Hi. apply list_elem_of_fmap. exists (i, v).
    split; [done|]. by eapply list_elem_of_lookup_2.
Qed.

(** X15.  The records come out in the order in which their connection ids
    first appear in the rows, one for each id; the record in a position is
    the record of the id in that position. *)
Theorem records_in_first_seen_order rows :
  keys (build_map rows) = first_seen (connection_id <$> rows)
  ∧ ∀ k i c, build_map rows !! k = Some (i, c) →
             build_connection_dict rows !! k = Some c
             ∧ getitem i (build_map rows) = Some c.
Proof.
  split.
  - induction rows as [|r rows IH] using rev_ind; [done|].
    rewrite build_map_snoc, loop_body_keys, fmap_snoc, first_seen_snoc, IH.
    destruct (build_map_keys rows) as [_ Hin].
    destruct (decide (connection_id r ∈ connection_id <$> rows)) as [Hr|Hr].
    + rewrite decide_True; [done|]. rewrite <- IH. by apply Hin.
    + rewrite decide_False; [done|]. rewrite <- IH. by rewrite Hin.
  - intros k i c Hk. split.
    + unfold build_connection_dict, values. by rewrite list_lookup_fmap, Hk.
    + eapply getitem_of_lookup; [apply build_map_keys|done].
Qed.

Lemma records_in_first_seen_order_witness :
  keys (build_map Samples.interleaved_rows) = [2; 1]
  ∧ name <$> build_connection_dict Samples.interleaved_rows
    = [Some "b"; Some "a"]
  ∧ ∃ c, build_connection_dict Samples.interleaved_rows !! 1%nat = Some c
         ∧ getitem 1 (build_map Samples.interleaved_rows) = Some c.
Proof.
  split; [|split; [reflexivity|]].
  - by rewrite (proj1 (records_in_first_seen_order Samples.interleaved_rows)).
  - eexists.
    apply (proj2 (records_in_first_seen_order Samples.interleaved_rows)
             1%nat 1). reflexivity.
Defined.

(** ** Each connection on its own *)

Lemma rows_of_idemp i rows : rows_of i (rows_of i rows) = rows_of i rows.
Proof.
  unfold rows_of. induction rows as [|r rows IH]; [done|].
  rewrite filter_cons. case_decide as Hr; [|done].
  by rewrite filter_cons_True, IH.
Qed.

(** X16.  The record of a connection is the record the normalizer builds
    from the rows of that connection alone: rows of other connections,
    before, after or in between, never change it, so the rows of a
    connection need not be next to each other. *)
Theorem record_from_own_rows rows i :
  getitem i (build_map rows) = getitem i (build_map (rows_of i rows))
  ∧ ∀ rows', rows_of i rows' = rows_of i rows →
             getitem i (build_map rows') = getitem i (build_map rows).
Proof.
  split.
  - by rewrite !build_map_getitem, rows_of_idemp.
  - intros rows' H. by rewrite !build_map_getitem, H.
Qed.

Lemma record_from_own_rows_witness :
  getitem 1 (build_map Samples.interleaved_rows)
  = getitem 1 (build_map
                 [(1, Some "a", Some "ROOT/x", Some "ssh",
                   Some "port", Some "22");
                  (1, Some "a", Some "ROOT/x", Some "ssh",
                   Some "hostname", Some "h")]).
Proof.
  apply (proj2 (record_from_own_rows _ 1) Samples.interleaved_rows).
  reflexivity.
Defined.

(** ** A parameter given twice *)

(** X17.  When the rows give a parameter of a connection more than once,
    the record keeps the value of the last of these rows. *)
Theorem last_value_kept pre r post k :
  parameter_name r = Some k →
  (∀ r', r' ∈ post → connection_id r' = connection_id r →
         parameter_name r' ≠ Some k) →
  ∃ c, getitem (connection_id r) (build_map (pre ++ r :: post)) = Some c
       ∧ getitem k (parameters c) = Some (parameter_value r).
Proof.
  intros Hk Hpost. unfold build_map.
  rewrite foldl_app. cbn [foldl]. rewrite foldl_getitem, loop_body_getitem.
  rewrite decide_True by done. rewrite record_of_Some.
  eexists. split; [done|]. rewrite add_rows_getitem_other.
  - unfold add_row. rewrite Hk. cbn. apply getitem_setitem_eq.
  - intros r' [Hr' Hid]%elem_of_rows_of. by apply Hpost.
Qed.

Lemma last_value_kept_witness :
  ∃ c, getitem 2 (build_map Samples.interleaved_rows) = Some c
       ∧ getitem "port" (parameters c) = Some (Some "5901").
Proof.
  apply (last_value_kept
           [(2, Some "b", Some "ROOT/", Some "vnc", Some "port", Some "5900");
            (1, Some "a", Some "ROOT/x", Some "ssh", Some "port", Some "22")]
           (2, Some "b", Some "ROOT/", Some "vnc", Some "port", Some "5901")
           [(1, Some "a", Some "ROOT/x", Some "ssh",
             Some "hostname", Some "h")] "port"); [reflexivity|].
  intros r' Hr'. apply list_elem_of_singleton in Hr' as ->. by vm_compute.
Defined.

(** ** The run of the exporter *)

Ltac trace_member H :=
  repeat (apply elem_of_cons in H as [H|H]; [try discriminate H|]);
  try (by apply elem_of_nil in H).

(** X18.  The exporter ends with status 0 or 1, and with 0 exactly when the
    session was opened, the query answered and the file written; it writes
    its file in no other run, and what it writes is the JSON text of the
    records built from the rows of the query, at the configured path. *)
Theorem export_outcome w :
  ((run w).2 = 0 ∨ (run w).2 = 1)
  ∧ ((run w).2 = 0
     ↔ connect_error w = None ∧ (∃ rows, query_result w = inr rows)
       ∧ write_error w = None)
  ∧ ∀ path content,
      FileWritten path content ∈ (run w).1 →
      (run w).2 = 0 ∧ path = OUTPUT_FILE
      ∧ ∃ rows, query_result w = inr rows
                ∧ content
                  = Json.dumps false
                      (Json.JList (to_json <$> build_connection_dict rows)).
Proof.
  destruct w as [[ce|] [qe|rows] [we|]];
    unfold run, main, connect_to_db, fetch_connections_and_params; cbn.
  all: split; [tauto|]; split.
  all: try (split;
            [intros H0;
             first [discriminate H0
                   |split; [done|]; split; [by eexists|done]]
            |intros (H1 & [? H2] & H3);
             first [discriminate H1|discriminate H2|discriminate H3|done]]).
  all: intros path content H; trace_member H.
  injection H as -> ->. split; [done|]. split; [done|]. by exists rows.
Qed.

Lemma export_outcome_witness :
  (run Samples.all_well).2 = 0
  ∧ ∃ content,
      FileWritten OUTPUT_FILE content ∈ (run Samples.all_well).1
      ∧ content
        = Json.dumps false
            (Json.JList (to_json <$> build_connection_dict Samples.rows_of_5)).
Proof.
  split.
  - apply (proj1 (proj2 (export_outcome Samples.all_well))).
    split; [done|]. split; [by eexists|done].
  - eexists. split; [|reflexivity]. vm_compute.
    repeat first [by apply list_elem_of_here | apply list_elem_of_further].
Defined.

(** X19.  In every run the cursor that was opened is closed, whether the
    query succeeded or failed; nothing is opened or closed when the
    connection to the database fails, and the exporter then ends with
    status 1; a session is closed only if it was opened. *)
Theorem cursor_always_closed w :
  (CursorOpened ∈ (run w).1 → CursorClosed ∈ (run w).1)
  ∧ (CursorOpened ∈ (run w).1 → SessionOpened ∈ (run w).1)
  ∧ (SessionClosed ∈ (run w).1 → SessionOpened ∈ (run w).1)
  ∧ ∀ e, connect_error w = Some e →
         (SessionOpened ∉ (run w).1) ∧ (CursorOpened ∉ (run w).1)
         ∧ (SessionClosed ∉ (run w).1) ∧ (run w).2 = 1.
Proof.
  destruct w as [[ce|] [qe|rows] [we|]];
    unfold run, main, connect_to_db, fetch_connections_and_params; cbn.
  all: repeat split.
  all: try (intros _; rewrite !elem_of_cons; tauto).
  all: try (intros Hm; trace_member Hm).
  all: done.
Qed.

Lemma cursor_always_closed_witness :
  CursorClosed ∈ (run Samples.query_fails).1
  ∧ (SessionOpened ∉ (run Samples.connect_fails).1)
  ∧ (run Samples.connect_fails).2 = 1.
Proof.
  split.
  - apply (proj1 (cursor_always_closed Samples.query_fails)).
    vm_compute.
    repeat first [by apply list_elem_of_here | apply list_elem_of_further].
  - destruct (proj2 (proj2 (proj2 (cursor_always_closed
                Samples.connect_fails))) "connection refused" eq_refl)
      as (H1 & _ & _ & H2).
    by split.
Defined.

End ExportExtras.
